(** * Drive-Time Company Map Viewer: a shallow embedding of [streamlit_app.py]

    The script is one Streamlit page.  Streamlit re-runs it from top to
    bottom on every user interaction; what survives between two runs is
    [st.session_state] (one per browser session) and the [st.cache_data]
    store of [get_isochrone] (one per server process).

    The embedding threads an explicit [World] through a small monad with
    two ways of leaving a run early: [st.stop()] and an uncaught
    exception.  Everything the script does to the outside (widgets drawn,
    HTTP requests, sleeps) is appended to a trace of [Event]s, and the
    routing provider is a function of that trace and of the request, so
    that a second request for the same point may well be answered
    differently from the first. *)

From Stdlib Require Import Ascii String ZArith QArith.
From stdpp Require Import gmap strings list fin_maps pretty.

Local Open Scope string_scope.
Local Open Scope list_scope.

(** ** Data *)

(** [openrouteservice.Client(key=...)]: the credential object. *)
Record Client := { key : string }.

#[global] Instance Client_eq_dec : EqDecision Client.
Proof. solve_decision. Defined.

#[global] Instance Client_countable : Countable Client :=
  inj_countable' key (fun k => {| key := k |}) (fun c => match c with {| key := _ |} => eq_refl end).

(** The keyword arguments of [_client.isochrones(...)]. *)
Record IsoQuery (Value : Type) := {
  locations : list (list Value);
  profile : string;
  range_type : string;
  intervals : list Z
}.
Arguments locations {Value} _.
Arguments profile {Value} _.
Arguments range_type {Value} _.
Arguments intervals {Value} _.

(** The [style_function] dictionaries handed to [folium.GeoJson]. *)
Record Style := {
  fillColor : string;
  color : string;
  weight : Z;
  fillOpacity : Q
}.

(** [folium.Icon(color=..., icon_color=..., icon=..., prefix=...)]. *)
Record Icon := {
  icon_base : string;
  icon_color : option string;
  icon_name : string;
  icon_prefix : option string
}.

(** A row of a data frame, read by column label ([row['Latitude']]). *)
Definition Row (Value : Type) := string -> Value.

Record DataFrame (Value : Type) := {
  columns : list string;
  iterrows : list (Row Value)
}.
Arguments columns {Value} _.
Arguments iterrows {Value} _.

(** What the upload control hands to [pd.ExcelFile] / [pd.read_excel]:
    either those calls raise (with the text of the exception), or they
    yield the two sheets. *)
Inductive Upload (Value : Type) :=
| Unreadable (cause : string)
| Workbook (companies_df projects_df : DataFrame Value).
Arguments Unreadable {Value} _.
Arguments Workbook {Value} _ _.

(** One value of [st.session_state.project_sites]. *)
Record ProjectSite (Value : Type) := {
  lat : Value;
  lon : Value;
  visible : bool
}.
Arguments lat {Value} _.
Arguments lon {Value} _.
Arguments visible {Value} _.

(** The widgets' return values in one run of the script. *)
Record Inputs (Value : Type) := {
  api_key_input : string;
  slider_minutes : Z;
  manual_minutes : Z;
  uploaded_file : option (Upload Value);
  checkbox : string -> bool -> bool
}.
Arguments api_key_input {Value} _.
Arguments slider_minutes {Value} _.
Arguments manual_minutes {Value} _.
Arguments uploaded_file {Value} _.
Arguments checkbox {Value} _ _ _.

(** An argument of a cached function, as [st.cache_data] sees it. *)
Inductive Arg (Value : Type) :=
| AClient (c : Client)
| AValue (v : Value)
| AInt (n : Z).
Arguments AClient {Value} _.
Arguments AValue {Value} _.
Arguments AInt {Value} _.

(** Everything the script does that can be observed from outside. *)
Inductive Event (Value Polygon Err : Type) :=
| ClientCreated (k : string)
| Warning (msg : string)
| Info (msg : string)
| Error (msg : string)
| Request (c : Client) (q : IsoQuery Value) (resp : Polygon + Err)
| MapCreated (location : list Value) (zoom_start : Z)
| GeoJson (iso : Polygon) (name : option string) (style : Style)
| Marker (location : list Value) (popup : string) (icon : Icon)
| Sleep (secs : Z)
| ShowMap
| Markdown (html : string).
Arguments ClientCreated {Value Polygon Err} _.
Arguments Warning {Value Polygon Err} _.
Arguments Info {Value Polygon Err} _.
Arguments Error {Value Polygon Err} _.
Arguments Request {Value Polygon Err} _ _ _.
Arguments MapCreated {Value Polygon Err} _ _.
Arguments GeoJson {Value Polygon Err} _ _ _.
Arguments Marker {Value Polygon Err} _ _ _.
Arguments Sleep {Value Polygon Err} _.
Arguments ShowMap {Value Polygon Err}.
Arguments Markdown {Value Polygon Err} _.

(** Uncaught exceptions. *)
Inductive Exn (Value Err : Type) :=
| ProviderError (e : Err)
| KeyError (k : Value).
Arguments ProviderError {Value Err} _.
Arguments KeyError {Value Err} _.

(** How a run (or a part of it) ends. *)
Inductive Outcome (Value Err A : Type) :=
| Ret (a : A)
| Stopped
| Raised (e : Exn Value Err).
Arguments Ret {Value Err A} _.
Arguments Stopped {Value Err A}.
Arguments Raised {Value Err A} _.

Section Model.

(** [Value] is a spreadsheet cell as pandas hands it over (a string or a
    number); the script only stores cells, compares them as dictionary
    and cache keys, formats them and averages them.  [Polygon] is the
    GeoJSON answer of the provider, [Err] what it raises. *)
Context {Value Polygon Err : Type} `{Countable Value}.

#[global] Instance Arg_eq_dec : EqDecision (Arg Value).
Proof. solve_decision. Defined.

Definition Arg_to_sum (a : Arg Value) : Client + Value + Z :=
  match a with
  | AClient c => inl (inl c)
  | AValue v => inl (inr v)
  | AInt n => inr n
  end.

Definition Arg_of_sum (s : Client + Value + Z) : Arg Value :=
  match s with
  | inl (inl c) => AClient c
  | inl (inr v) => AValue v
  | inr n => AInt n
  end.

#[global] Instance Arg_countable : Countable (Arg Value) :=
  inj_countable' Arg_to_sum Arg_of_sum
    (fun a => match a with AClient _ | AValue _ | AInt _ => eq_refl end).

(** *** Python dictionaries (insertion ordered) *)

Fixpoint dict_get {V} (k : Value) (d : list (Value * V)) : option V :=
  match d with
  | [] => None
  | (k', v) :: d' => if decide (k' = k) then Some v else dict_get k d'
  end.

(** [d[k] = v]: overwrite in place, or append a new key at the end. *)
Fixpoint dict_set {V} (k : Value) (v : V) (d : list (Value * V)) : list (Value * V) :=
  match d with
  | [] => [(k, v)]
  | (k', v') :: d' =>
      if decide (k' = k) then (k', v) :: d' else (k', v') :: dict_set k v d'
  end.

(** *** State *)

Record Session := {
  competitor_visibility : gmap Value bool;
  project_sites : list (Value * ProjectSite Value);
  all_competitors : gset Value;
  api_key : string
}.

(** Lines 15-20: every key is created empty on the first run of a
    session ([setdefault], [if "api_key" not in ...]) and left alone on
    later runs, so a new session is this record and the four statements
    are the identity afterwards. *)
Definition new_session : Session :=
  {| competitor_visibility := ∅; project_sites := []; all_competitors := ∅; api_key := "" |}.

Record World := {
  session : Session;
  cache : gmap (list (Arg Value)) Polygon;
  log : list (Event Value Polygon Err)
}.

Definition set_session (f : Session -> Session) (w : World) : World :=
  {| session := f (session w); cache := cache w; log := log w |}.

Definition set_cache (f : gmap (list (Arg Value)) Polygon -> gmap (list (Arg Value)) Polygon)
    (w : World) : World :=
  {| session := session w; cache := f (cache w); log := log w |}.

Definition set_log (f : list (Event Value Polygon Err) -> list (Event Value Polygon Err))
    (w : World) : World :=
  {| session := session w; cache := cache w; log := f (log w) |}.

(** *** The monad of a script run *)

Definition M (A : Type) : Type := World -> Outcome Value Err A * World.

#[global] Instance M_ret : MRet M := fun A a w => (Ret a, w).

#[global] Instance M_bind : MBind M := fun A B k m w =>
  match m w with
  | (Ret a, w') => k a w'
  | (Stopped, w') => (Stopped, w')
  | (Raised e, w') => (Raised e, w')
  end.

Definition emit (e : Event Value Polygon Err) : M unit :=
  fun w => (Ret tt, set_log (fun l => l ++ [e]) w).

Definition stop {A} : M A := fun w => (Stopped, w).

Definition raise {A} (e : Exn Value Err) : M A := fun w => (Raised e, w).

Definition get_session : M Session := fun w => (Ret (session w), w).

Definition modify_session (f : Session -> Session) : M unit :=
  fun w => (Ret tt, set_session f w).

Fixpoint for_each {A} (xs : list A) (body : A -> M unit) : M unit :=
  match xs with
  | [] => mret tt
  | x :: xs' => body x ;; for_each xs' body
  end.

(** ** The script *)

(** The routing provider behind [_client.isochrones]: its answer may
    depend on everything the process did before (earlier requests,
    pauses between them), on the credential and on the query. *)
Variable isochrones :
  list (Event Value Polygon Err) -> Client -> IsoQuery Value -> Polygon + Err.

(** [Series.mean()] on a coordinate column, and [str()] as the f-strings
    apply it to a cell. *)
Variable mean : list Value -> Value.
Variable str : Value -> string.

(** Truth value of a Python string. *)
Definition truthy (s : string) : bool :=
  match s with
  | EmptyString => false
  | String _ _ => true
  end.

(** *** Lines 22-35: the API key *)

Definition set_api_key (k : string) (s : Session) : Session :=
  {| competitor_visibility := competitor_visibility s;
     project_sites := project_sites s;
     all_competitors := all_competitors s;
     api_key := k |}.

Definition api_key_widget (inp : Inputs Value) : M unit :=
  if truthy (api_key_input inp)
  then modify_session (set_api_key (api_key_input inp))
  else mret tt.

Definition api_key_warning : string :=
  "⚠️ Enter your API key to enable drive-time analysis features.".

Definition check_api_key : M Client :=
  s ← get_session;
  if truthy (api_key s)
  then emit (ClientCreated (api_key s)) ;; mret {| key := api_key s |}
  else emit (Warning api_key_warning) ;; stop.

(** *** Lines 45-48: the upload control *)

Definition upload_info : string :=
  "⬆️ Please upload an Excel file with 'Companies' and 'Projects' sheets.".

Definition file_uploader (inp : Inputs Value) : M (Upload Value) :=
  match uploaded_file inp with
  | Some f => mret f
  | None => emit (Info upload_info) ;; stop
  end.

(** *** Lines 51-63: load and validate *)

Definition required_companies : list string :=
  ["Company Location"; "Latitude"; "Longitude"; "Company Name"].

Definition required_projects : list string :=
  ["Project Name"; "Latitude"; "Longitude"].

Definition companies_msg (col : string) : string :=
  "'Companies' sheet must include '" +:+ col +:+ "' column.".

Definition projects_msg (col : string) : string :=
  "'Projects' sheet must include '" +:+ col +:+ "' column.".

(** [for col in cols: assert col in df.columns, msg]: the text of the
    first assertion that fails, if any. *)
Fixpoint assert_columns (msg : string -> string) (cols : list string)
    (df : DataFrame Value) : option string :=
  match cols with
  | [] => None
  | col :: cols' =>
      if decide (col ∈ columns df) then assert_columns msg cols' df
      else Some (msg col)
  end.

(** The body of the [try]: the text of the exception, or the two frames. *)
Definition load (up : Upload Value) : string + DataFrame Value * DataFrame Value :=
  match up with
  | Unreadable cause => inl cause
  | Workbook companies_df projects_df =>
      match assert_columns companies_msg required_companies companies_df with
      | Some e => inl e
      | None =>
          match assert_columns projects_msg required_projects projects_df with
          | Some e => inl e
          | None => inr (companies_df, projects_df)
          end
      end
  end.

Definition load_error (e : string) : string := "❌ Error loading data: " +:+ e.

Definition load_and_validate (up : Upload Value) : M (DataFrame Value * DataFrame Value) :=
  match load up with
  | inl e => emit (Error (load_error e)) ;; stop
  | inr dfs => mret dfs
  end.

(** *** Lines 66-72: project sites *)

Definition set_project_sites (ps : list (Value * ProjectSite Value)) (s : Session) : Session :=
  {| competitor_visibility := competitor_visibility s;
     project_sites := ps;
     all_competitors := all_competitors s;
     api_key := api_key s |}.

Definition add_project_site (ps : list (Value * ProjectSite Value)) (row : Row Value) :
    list (Value * ProjectSite Value) :=
  dict_set (row "Project Name")
    {| lat := row "Latitude"; lon := row "Longitude"; visible := true |} ps.

Definition populate_project_sites (projects_df : DataFrame Value)
    (ps : list (Value * ProjectSite Value)) : list (Value * ProjectSite Value) :=
  match ps with
  | [] => foldl add_project_site [] (iterrows projects_df)
  | _ :: _ => ps
  end.

Definition init_project_sites (projects_df : DataFrame Value) : M unit :=
  modify_session (fun s => set_project_sites (populate_project_sites projects_df (project_sites s)) s).

(** *** Lines 75-82: the cached retrieval function *)

Definition get_isochrone_params : list string := ["_client"; "lon"; "lat"; "seconds"].

(** [st.cache_data] leaves out of the key every argument whose parameter
    name starts with an underscore. *)
Definition unhashed (param : string) : bool :=
  match param with
  | String "_"%char _ => true
  | _ => false
  end.

Fixpoint cache_key (params : list string) (args : list (Arg Value)) : list (Arg Value) :=
  match params, args with
  | p :: params', a :: args' =>
      if unhashed p then cache_key params' args' else a :: cache_key params' args'
  | _, _ => []
  end.

Definition iso_query (lon lat : Value) (seconds : Z) : IsoQuery Value :=
  {| locations := [[lon; lat]];
     profile := "driving-car";
     range_type := "time";
     intervals := [seconds] |}.

Definition get_isochrone (_client : Client) (lon lat : Value) (seconds : Z) : M Polygon :=
  fun w =>
    let k := cache_key get_isochrone_params
               [AClient _client; AValue lon; AValue lat; AInt seconds] in
    match cache w !! k with
    | Some iso => (Ret iso, w)
    | None =>
        let q := iso_query lon lat seconds in
        let resp := isochrones (log w) _client q in
        let w' := set_log (fun l => l ++ [Request _client q resp]) w in
        match resp with
        | inl iso => (Ret iso, set_cache (insert k iso) w')
        | inr e => (Raised (ProviderError e), w')
        end
    end.

(** *** Lines 85-88: competitor visibility *)

Definition setdefault (k : Value) (v : bool) (m : gmap Value bool) : gmap Value bool :=
  match m !! k with
  | Some _ => m
  | None => <[k := v]> m
  end.

Definition add_competitor (s : Session) (row : Row Value) : Session :=
  let cname := row "Company Location" in
  {| competitor_visibility := setdefault cname true (competitor_visibility s);
     project_sites := project_sites s;
     all_competitors := {[cname]} ∪ all_competitors s;
     api_key := api_key s |}.

Definition init_competitor_visibility (companies_df : DataFrame Value) : M unit :=
  modify_session (fun s => foldl add_competitor s (iterrows companies_df)).

(** *** Lines 91-93: the project check boxes *)

Definition tick (inp : Inputs Value) (item : Value * ProjectSite Value) :
    Value * ProjectSite Value :=
  let '(pname, pdata) := item in
  (pname, {| lat := lat pdata; lon := lon pdata;
             visible := checkbox inp (str pname) (visible pdata) |}).

Definition project_checkboxes (inp : Inputs Value) : M unit :=
  modify_session (fun s => set_project_sites (map (tick inp) (project_sites s)) s).

(** *** Lines 96-105: the map and the colours *)

Definition column (col : string) (df : DataFrame Value) : list Value :=
  map (fun row : Row Value => row col) (iterrows df).

Definition map_init (companies_df : DataFrame Value) : M unit :=
  emit (MapCreated [mean (column "Latitude" companies_df);
                    mean (column "Longitude" companies_df)] 10).

(** [Series.unique()]: the distinct values in order of first appearance. *)
Fixpoint unique_from (seen : list Value) (l : list Value) : list Value :=
  match l with
  | [] => []
  | x :: l' =>
      if decide (x ∈ seen) then unique_from seen l'
      else x :: unique_from (x :: seen) l'
  end.

Definition unique (l : list Value) : list Value := unique_from [] l.

(** [plt.colormaps['tab20']], each entry as [mcolors.to_hex] prints it. *)
Definition tab20 : list string :=
  ["#1f77b4"; "#aec7e8"; "#ff7f0e"; "#ffbb78"; "#2ca02c"; "#98df8a";
   "#d62728"; "#ff9896"; "#9467bd"; "#c5b0d5"; "#8c564b"; "#c49c94";
   "#e377c2"; "#f7b6d2"; "#7f7f7f"; "#c7c7c7"; "#bcbd22"; "#dbdb8d";
   "#17becf"; "#9edae5"].

Definition colormap_N : nat := length tab20.

(** [mcolors.to_hex(colormap(i))] for an integer [i]; an index past the
    end gives the last colour. *)
Definition colormap (i : nat) : string := nth i tab20 "#9edae5".

(** [enumerate(iterable, start)]. *)
Fixpoint enumerate_from {A} (start : nat) (l : list A) : list (nat * A) :=
  match l with
  | [] => []
  | x :: l' => (start, x) :: enumerate_from (S start) l'
  end.

Definition enumerate {A} (l : list A) : list (nat * A) := enumerate_from 0 l.

Definition assign_colors (unique_companies : list Value) : list (Value * string) :=
  foldl (fun d '(i, name) => dict_set name (colormap (i mod colormap_N)) d)
        [] (enumerate unique_companies).

Definition company_colors (companies_df : DataFrame Value) : list (Value * string) :=
  assign_colors (unique (column "Company Name" companies_df)).

(** *** Lines 108-123: project site isochrones *)

Definition project_style : Style :=
  {| fillColor := "#ff0000"; color := "#ff0000"; weight := 2; fillOpacity := Qmake 3 10 |}.

Definition project_icon : Icon :=
  {| icon_base := "red"; icon_color := None; icon_name := "star"; icon_prefix := Some "fa" |}.

Definition project_layer (pname : Value) (drive_time_minutes : Z) : string :=
  str pname +:+ " (" +:+ pretty drive_time_minutes +:+ "-min radius)".

Definition project_isochrone (client : Client) (drive_time_minutes drive_time_seconds : Z)
    (item : Value * ProjectSite Value) : M unit :=
  let '(pname, pdata) := item in
  if visible pdata then
    iso ← get_isochrone client (lon pdata) (lat pdata) drive_time_seconds;
    emit (GeoJson iso (Some (project_layer pname drive_time_minutes)) project_style) ;;
    emit (Marker [lat pdata; lon pdata] (str pname) project_icon) ;;
    emit (Sleep 1)
  else mret tt.

Definition project_isochrones (client : Client) (drive_time_minutes drive_time_seconds : Z) :
    M unit :=
  s ← get_session;
  for_each (project_sites s) (project_isochrone client drive_time_minutes drive_time_seconds).

(** *** Lines 126-143: competitor isochrones and markers *)

Definition company_style (c : string) : Style :=
  {| fillColor := c; color := c; weight := 2; fillOpacity := Qmake 2 10 |}.

Definition company_icon (c : string) : Icon :=
  {| icon_base := "black"; icon_color := Some c; icon_name := "info-sign"; icon_prefix := None |}.

Definition competitor_isochrone (client : Client) (colors : list (Value * string))
    (drive_time_seconds : Z) (row : Row Value) : M unit :=
  let cname := row "Company Location" in
  s ← get_session;
  match competitor_visibility s !! cname with
  | None => raise (KeyError cname)
  | Some false => mret tt
  | Some true =>
      iso ← get_isochrone client (row "Longitude") (row "Latitude") drive_time_seconds;
      match dict_get (row "Company Name") colors with
      | None => raise (KeyError (row "Company Name"))
      | Some c =>
          emit (GeoJson iso None (company_style c)) ;;
          emit (Marker [row "Latitude"; row "Longitude"] (str cname) (company_icon c)) ;;
          emit (Sleep 1)
      end
  end.

Definition competitor_isochrones (client : Client) (companies_df : DataFrame Value)
    (colors : list (Value * string)) (drive_time_seconds : Z) : M unit :=
  for_each (iterrows companies_df) (competitor_isochrone client colors drive_time_seconds).

(** *** Lines 146-170: the map and the legend *)

Definition nl : string := String (ascii_of_nat 10) EmptyString.

Definition legend_item (item : Value * string) : string :=
  let '(company, c) := item in
  "<div style='margin-bottom:6px;'>"
  +:+ "<span style='display:inline-block;width:14px;height:14px;"
  +:+ "background:" +:+ c +:+ ";margin-right:8px;border:1px solid black;'></span>"
  +:+ str company +:+ "</div>".

Definition legend_items (colors : list (Value * string)) : string :=
  foldl (fun acc item => acc +:+ legend_item item) "" colors.

Definition legend_html (colors : list (Value * string)) : string :=
  nl +:+ "    <div style='font-size: 14px; max-height: 500px; overflow-y: auto; padding: 4px;'>"
  +:+ nl +:+ "        " +:+ legend_items colors
  +:+ nl +:+ "    </div>" +:+ nl +:+ "    ".

Definition display (colors : list (Value * string)) : M unit :=
  emit ShowMap ;; emit (Markdown (legend_html colors)).

(** *** One run of the script

    Titles, sub-headers and the column layout are not traced; the
    slider only supplies the default of the number input, whose value
    is the one used. *)
Definition script (inp : Inputs Value) : M unit :=
  api_key_widget inp ;;
  client ← check_api_key;
  let drive_time_minutes := manual_minutes inp in
  let drive_time_seconds := (drive_time_minutes * 60)%Z in
  uploaded ← file_uploader inp;
  '(companies_df, projects_df) ← load_and_validate uploaded;
  init_project_sites projects_df ;;
  init_competitor_visibility companies_df ;;
  project_checkboxes inp ;;
  map_init companies_df ;;
  let colors := company_colors companies_df in
  project_isochrones client drive_time_minutes drive_time_seconds ;;
  competitor_isochrones client companies_df colors drive_time_seconds ;;
  display colors.

(** *** Several runs *)

Definition run (inp : Inputs Value) (w : World) : World := (script inp w).2.

(** The successive interactions of one session. *)
Definition interact (inps : list (Inputs Value)) (w : World) : World :=
  foldl (fun w inp => run inp w) w inps.

(** A server process that has just started, with its first session. *)
Definition boot : World := {| session := new_session; cache := ∅; log := [] |}.

(** Another browser session joins the same process. *)
Definition open_session (w : World) : World := set_session (fun _ => new_session) w.

(** *** Reading a trace *)

Definition is_request (e : Event Value Polygon Err) : bool :=
  match e with Request _ _ _ => true | _ => false end.

Definition is_success (e : Event Value Polygon Err) : bool :=
  match e with Request _ _ (inl _) => true | _ => false end.

Definition is_sleep (e : Event Value Polygon Err) : bool :=
  match e with Sleep _ => true | _ => false end.

Definition is_client (e : Event Value Polygon Err) : bool :=
  match e with ClientCreated _ => true | _ => false end.

Definition is_render (e : Event Value Polygon Err) : bool :=
  match e with
  | MapCreated _ _ | GeoJson _ _ _ | Marker _ _ _ | ShowMap | Markdown _ => true
  | _ => false
  end.

Fixpoint count (p : Event Value Polygon Err -> bool) (l : list (Event Value Polygon Err)) : nat :=
  match l with
  | [] => 0
  | e :: l' => (if p e then 1 else 0) + count p l'
  end.

End Model.

Arguments Session Value {_ _}.
Arguments World Value Polygon Err {_ _}.
Arguments M Value Polygon Err {_ _} A.

(** ** The two drawing loops, seen as one

    Both loops do the same thing for each entry they keep: fetch the
    isochrone of a point, add a GeoJson layer and a marker, sleep.  The
    definitions below name that common shape; the lemmas further down
    show that the loops of the script are instances of it. *)

Record Overlay (Value : Type) := {
  at_lon : Value;
  at_lat : Value;
  layer : option string;
  layer_style : Style;
  popup : string;
  pin : Icon
}.
Arguments at_lon {Value} _.
Arguments at_lat {Value} _.
Arguments layer {Value} _.
Arguments layer_style {Value} _.
Arguments popup {Value} _.
Arguments pin {Value} _.

Section Overlays.

Context {Value Polygon Err : Type} `{Countable Value}.
Variable isochrones :
  list (Event Value Polygon Err) -> Client -> IsoQuery Value -> Polygon + Err.
Variable mean : list Value -> Value.
Variable str : Value -> string.

Definition overlay (client : Client) (seconds : Z) (o : Overlay Value) :
    M Value Polygon Err unit :=
  iso ← get_isochrone isochrones client (at_lon o) (at_lat o) seconds;
  emit (GeoJson iso (layer o) (layer_style o)) ;;
  emit (Marker [at_lat o; at_lon o] (popup o) (pin o)) ;;
  emit (Sleep 1).

(** The key under which [get_isochrone] files the polygon of an overlay. *)
Definition overlay_key (seconds : Z) (o : Overlay Value) : list (Arg Value) :=
  [AValue (at_lon o); AValue (at_lat o); AInt seconds].

(** What one overlay adds to the map, then the pause. *)
Definition drawn (o : Overlay Value) (p : Polygon) : list (Event Value Polygon Err) :=
  [GeoJson p (layer o) (layer_style o); Marker [at_lat o; at_lon o] (popup o) (pin o); Sleep 1].

(** The three ways one overlay can go: the polygon is in the cache, it
    is fetched and filed, or the provider refuses. *)
Inductive overlay_step (c : Client) (seconds : Z) (o : Overlay Value)
    (w : World Value Polygon Err) :
    Outcome Value Err unit * World Value Polygon Err -> Prop :=
| step_hit p :
    cache w !! overlay_key seconds o = Some p ->
    overlay_step c seconds o w
      (Ret tt, {| session := session w; cache := cache w; log := log w ++ drawn o p |})
| step_fetch p :
    cache w !! overlay_key seconds o = None ->
    isochrones (log w) c (iso_query (at_lon o) (at_lat o) seconds) = inl p ->
    overlay_step c seconds o w
      (Ret tt, {| session := session w;
                  cache := <[ overlay_key seconds o := p ]> (cache w);
                  log := log w ++ Request c (iso_query (at_lon o) (at_lat o) seconds) (inl p)
                                  :: drawn o p |})
| step_fail e :
    cache w !! overlay_key seconds o = None ->
    isochrones (log w) c (iso_query (at_lon o) (at_lat o) seconds) = inr e ->
    overlay_step c seconds o w
      (Raised (ProviderError e),
       {| session := session w; cache := cache w;
          log := log w ++ [Request c (iso_query (at_lon o) (at_lat o) seconds) (inr e)] |}).

(** A whole loop of overlays: it goes on while the steps return. *)
Inductive tour_run (c : Client) (seconds : Z) :
    list (Overlay Value) -> World Value Polygon Err ->
    Outcome Value Err unit * World Value Polygon Err -> Prop :=
| tour_nil w : tour_run c seconds [] w (Ret tt, w)
| tour_next o os w w1 rw :
    overlay_step c seconds o w (Ret tt, w1) ->
    tour_run c seconds os w1 rw ->
    tour_run c seconds (o :: os) w rw
| tour_abort o os w e w1 :
    overlay_step c seconds o w (Raised e, w1) ->
    tour_run c seconds (o :: os) w (Raised e, w1).

Definition project_overlay (minutes : Z) (item : Value * ProjectSite Value) : Overlay Value :=
  {| at_lon := lon item.2; at_lat := lat item.2;
     layer := Some (project_layer str item.1 minutes); layer_style := project_style;
     popup := str item.1; pin := project_icon |}.

Definition shown (item : Value * ProjectSite Value) : bool := visible item.2.

Definition project_overlays (minutes : Z) (sites : list (Value * ProjectSite Value)) :
    list (Overlay Value) :=
  map (project_overlay minutes) (List.filter shown sites).

Definition company_overlay (colors : list (Value * string)) (row : Row Value) : Overlay Value :=
  let c := default "" (dict_get (row "Company Name") colors) in
  {| at_lon := row "Longitude"; at_lat := row "Latitude";
     layer := None; layer_style := company_style c;
     popup := str (row "Company Location"); pin := company_icon c |}.

(** [if st.session_state.competitor_visibility[cname]:] for a row whose
    name is recorded. *)
Definition row_visible (s : Session Value) (row : Row Value) : bool :=
  match competitor_visibility s !! row "Company Location" with
  | Some true => true
  | _ => false
  end.

Definition company_overlays (companies_df : DataFrame Value) (s : Session Value) :
    list (Overlay Value) :=
  map (company_overlay (company_colors companies_df))
      (List.filter (row_visible s) (iterrows companies_df)).

(** Everything a run draws, given the session as the check boxes left it. *)
Definition overlays (minutes : Z) (companies_df : DataFrame Value) (s : Session Value) :
    list (Overlay Value) :=
  project_overlays minutes (project_sites s) ++ company_overlays companies_df s.

(** Lines 22-28 on the session. *)
Definition with_key (inp : Inputs Value) (s : Session Value) : Session Value :=
  if truthy (api_key_input inp) then set_api_key (api_key_input inp) s else s.

(** Lines 66-93 on the session. *)
Definition ready (inp : Inputs Value) (companies_df projects_df : DataFrame Value)
    (s : Session Value) : Session Value :=
  let s1 := set_project_sites (populate_project_sites projects_df (project_sites s)) s in
  let s2 := foldl add_competitor s1 (iterrows companies_df) in
  set_project_sites (map (tick str inp) (project_sites s2)) s2.

(** Lines 96-170. *)
Definition render (client : Client) (inp : Inputs Value) (companies_df : DataFrame Value) :
    M Value Polygon Err unit :=
  map_init mean companies_df ;;
  project_isochrones isochrones str client (manual_minutes inp) (manual_minutes inp * 60)%Z ;;
  competitor_isochrones isochrones str client companies_df (company_colors companies_df)
    (manual_minutes inp * 60)%Z ;;
  display str (company_colors companies_df).

(** The first and the last things a rendering run adds to the trace. *)
Definition map_created (companies_df : DataFrame Value) : Event Value Polygon Err :=
  MapCreated [mean (column "Latitude" companies_df); mean (column "Longitude" companies_df)] 10.

Definition shown_at_last (companies_df : DataFrame Value) : list (Event Value Polygon Err) :=
  [ShowMap; Markdown (legend_html str (company_colors companies_df))].

(** The world in which a rendering run starts its two loops. *)
Definition stage (inp : Inputs Value) (companies_df projects_df : DataFrame Value)
    (w : World Value Polygon Err) : World Value Polygon Err :=
  {| session := ready inp companies_df projects_df (with_key inp (session w));
     cache := cache w;
     log := log w ++ [ClientCreated (api_key (with_key inp (session w)));
                      map_created companies_df] |}.

(** The session a run leaves behind. *)
Definition next_session (inp : Inputs Value) (s : Session Value) : Session Value :=
  let s1 := with_key inp s in
  if truthy (api_key s1) then
    match uploaded_file inp with
    | None => s1
    | Some up =>
        match load up with
        | inl _ => s1
        | inr (companies_df, projects_df) => ready inp companies_df projects_df s1
        end
    end
  else s1.

(** What one run adds to the trace. *)
Definition pass (inp : Inputs Value) (w : World Value Polygon Err) :
    list (Event Value Polygon Err) :=
  drop (length (log w)) (log (run isochrones mean str inp w)).

(** The states a server process goes through: any session may run the
    script next, with any inputs. *)
Inductive later (w : World Value Polygon Err) : World Value Polygon Err -> Prop :=
| later_now : later w w
| later_run w' s inp :
    later w w' ->
    later w (run isochrones mean str inp (set_session (fun _ => s) w')).

(** No competitor is recorded as hidden. *)
Definition all_visible (s : Session Value) : Prop :=
  forall cname b, competitor_visibility s !! cname = Some b -> b = true.

Definition is_layer (e : Event Value Polygon Err) : bool :=
  match e with GeoJson _ _ _ => true | _ => false end.

Definition is_marker (e : Event Value Polygon Err) : bool :=
  match e with Marker _ _ _ => true | _ => false end.

End Overlays.

(** ** More ways to read a trace *)

Section Reading.

Context {Value Polygon Err : Type} `{Countable Value}.

Definition is_show (e : Event Value Polygon Err) : bool :=
  match e with ShowMap => true | _ => false end.

Definition is_markdown (e : Event Value Polygon Err) : bool :=
  match e with Markdown _ => true | _ => false end.

(** The events a turn of one of the two loops can add. *)
Definition is_loop_event (e : Event Value Polygon Err) : bool :=
  match e with
  | Request _ _ _ | GeoJson _ _ _ | Marker _ _ _ | Sleep _ => true
  | _ => false
  end.

(** A request, if [e] is one, goes out with client [c] and asks for the
    [seconds] isochrone of one of [points] (longitude first). *)
Definition asks (c : Client) (seconds : Z) (points : list (Value * Value))
    (e : Event Value Polygon Err) : Prop :=
  match e with
  | Request c' q _ => c' = c /\ exists p, p ∈ points /\ q = iso_query p.1 p.2 seconds
  | _ => True
  end.

(** The points a run may ask about: the visible project sites of the
    session, then the company rows. *)
Definition points (companies_df : DataFrame Value) (s : Session Value) : list (Value * Value) :=
  map (fun it : Value * ProjectSite Value => (lon it.2, lat it.2))
      (List.filter shown (project_sites s))
  ++ map (fun row : Row Value => (row "Longitude", row "Latitude")) (iterrows companies_df).

(** The site a row of the "Projects" sheet stands for. *)
Definition site_of (row : Row Value) : ProjectSite Value :=
  {| lat := row "Latitude"; lon := row "Longitude"; visible := true |}.

(** The trace [l] holds a request for the triple of key [k] that the
    provider answered with [p]. *)
Definition answered (l : list (Event Value Polygon Err)) (k : list (Arg Value)) (p : Polygon) :
    Prop :=
  exists c lo la seconds,
    k = [AValue lo; AValue la; AInt seconds]
    /\ Request c (iso_query lo la seconds) (inl p) ∈ l.

(** Reading a trace from left to right: [rested] tells whether a sleep
    has passed since the last request (or none was sent yet); the trace
    is paced when every request finds the process rested. *)
Fixpoint paced (rested : bool) (l : list (Event Value Polygon Err)) : bool :=
  match l with
  | [] => true
  | Request _ _ _ :: l' => rested && paced false l'
  | Sleep _ :: l' => paced true l'
  | _ :: l' => paced rested l'
  end.

End Reading.

(** ** Concrete inputs

    Spreadsheet cells for the examples: text, or a decimal number given
    in tenths ([Number (-740)] is -74.0). *)
Module Sample.

Inductive Cell :=
| Text (s : string)
| Number (tenths : Z).

#[global] Instance Cell_eq_dec : EqDecision Cell.
Proof. solve_decision. Defined.

Definition Cell_to_sum (c : Cell) : string + Z :=
  match c with Text s => inl s | Number n => inr n end.

Definition Cell_of_sum (s : string + Z) : Cell :=
  match s with inl s => Text s | inr n => Number n end.

#[global] Instance Cell_countable : Countable Cell :=
  inj_countable' Cell_to_sum Cell_of_sum
    (fun c => match c with Text _ | Number _ => eq_refl end).

Definition tenths_of (c : Cell) : Z :=
  match c with Text _ => 0 | Number n => n end.

Definition mean (l : list Cell) : Cell :=
  Number (foldr Z.add 0%Z (map tenths_of l) / Z.of_nat (length l)).

Definition str (c : Cell) : string :=
  match c with
  | Text s => s
  | Number n => pretty n +:+ "e-1"
  end.

(** A provider that always answers; its answer is the number of requests
    it has served before, so no two answers are alike. *)
Definition serial (l : list (Event Cell nat string)) (c : Client) (q : IsoQuery Cell) :
    nat + string :=
  inl (count is_request l).

(** A provider that serves its first request only. *)
Definition quota (l : list (Event Cell nat string)) (c : Client) (q : IsoQuery Cell) :
    nat + string :=
  match count is_request l with
  | O => inl O
  | S _ => inr "429 Too Many Requests"
  end.

Definition row_of (cells : list (string * Cell)) : Row Cell :=
  fun col =>
    match list_find (fun p => p.1 = col) cells with
    | Some (_, (_, v)) => v
    | None => Text ""
    end.

Definition company (location name : string) (la lo : Z) : Row Cell :=
  row_of [("Company Location", Text location); ("Company Name", Text name);
          ("Latitude", Number la); ("Longitude", Number lo)].

Definition project (name : string) (la lo : Z) : Row Cell :=
  row_of [("Project Name", Text name); ("Latitude", Number la); ("Longitude", Number lo)].

Definition companies_sheet (rows : list (Row Cell)) : DataFrame Cell :=
  {| columns := ["Company Location"; "Company Name"; "Latitude"; "Longitude"];
     iterrows := rows |}.

Definition projects_sheet (rows : list (Row Cell)) : DataFrame Cell :=
  {| columns := ["Project Name"; "Latitude"; "Longitude"]; iterrows := rows |}.

(** One project at (40.0, -74.0) and one company "Acme" at (40.1, -74.1). *)
Definition acme_book : Upload Cell :=
  Workbook (companies_sheet [company "Acme HQ" "Acme" 401 (-741)])
           (projects_sheet [project "Depot" 400 (-740)]).


(** The "Companies" sheet lacks its "Latitude" column. *)
Definition no_latitude_book : Upload Cell :=
  Workbook {| columns := ["Company Location"; "Company Name"; "Longitude"];
              iterrows := [company "Acme HQ" "Acme" 401 (-741)] |}
           (projects_sheet [project "Depot" 400 (-740)]).

(** Another workbook, with other projects. *)
Definition other_book : Upload Cell :=
  Workbook (companies_sheet [company "Acme HQ" "Acme" 401 (-741)])
           (projects_sheet [project "Quarry" 390 (-750); project "Depot" 10 20]).

Definition untouched (label : string) (value : bool) : bool := value.

Definition visit (k : string) (minutes : Z) (book : option (Upload Cell)) : Inputs Cell :=
  {| api_key_input := k; slider_minutes := 10; manual_minutes := minutes;
     uploaded_file := book; checkbox := untouched |}.

(** *** People, workbooks and runs used in the examples *)

Definition alice : Client := {| key := "alice-key" |}.
Definition bob : Client := {| key := "bob-key" |}.

Definition acme_companies : DataFrame Cell :=
  companies_sheet [company "Acme HQ" "Acme" 401 (-741)].

Definition acme_projects : DataFrame Cell :=
  projects_sheet [project "Depot" 400 (-740)].

(** The first call of a process: the depot, ten minutes, Alice's key. *)
Definition first_call : Outcome Cell string nat * World Cell nat string :=
  get_isochrone serial alice (Number (-740)) (Number 400) 600 boot.

(** Alice's first run on the Acme workbook, in a new process. *)
Definition alice_run : World Cell nat string :=
  run serial mean str (visit "alice-key" 10 (Some acme_book)) boot.

Definition start : World Cell nat string := boot.

Definition acme_visit : Inputs Cell := visit "alice-key" 10 (Some acme_book).

Definition no_latitude_visit : Inputs Cell := visit "k" 10 (Some no_latitude_book).

Definition no_latitude_companies : DataFrame Cell :=
  {| columns := ["Company Location"; "Company Name"; "Longitude"];
     iterrows := [company "Acme HQ" "Acme" 401 (-741)] |}.

End Sample.

(** * Proofs *)

Section Basics.

Context {Value Polygon Err : Type} `{Countable Value}.
Variable isochrones :
  list (Event Value Polygon Err) -> Client -> IsoQuery Value -> Polygon + Err.

Local Abbreviation world := (World Value Polygon Err).
Local Abbreviation event := (Event Value Polygon Err).

(** *** Counting events *)

Lemma count_app (p : event -> bool) (l1 l2 : list event) :
  count p (l1 ++ l2) = count p l1 + count p l2.
Proof.
  induction l1 as [|e l1 IH]; simpl; [done|]. rewrite IH. lia.
Qed.

(** *** The cache key *)

Lemma cache_key_get_isochrone (c : Client) (lo la : Value) (seconds : Z) :
  cache_key get_isochrone_params [AClient c; AValue lo; AValue la; AInt seconds]
  = [AValue lo; AValue la; AInt seconds].
Proof. reflexivity. Qed.

(** *** [get_isochrone], case by case *)

Lemma get_isochrone_hit (c : Client) (lo la : Value) (seconds : Z) (w : world) (p : Polygon) :
  cache w !! [AValue lo; AValue la; AInt seconds] = Some p ->
  get_isochrone isochrones c lo la seconds w = (Ret p, w).
Proof.
  intros Hhit. unfold get_isochrone. rewrite cache_key_get_isochrone, Hhit. done.
Qed.

Lemma get_isochrone_fetch (c : Client) (lo la : Value) (seconds : Z) (w : world) (p : Polygon) :
  cache w !! [AValue lo; AValue la; AInt seconds] = None ->
  isochrones (log w) c (iso_query lo la seconds) = inl p ->
  get_isochrone isochrones c lo la seconds w
  = (Ret p, {| session := session w;
               cache := <[ [AValue lo; AValue la; AInt seconds] := p ]> (cache w);
               log := log w ++ [Request c (iso_query lo la seconds) (inl p)] |}).
Proof.
  intros Hmiss Hok. unfold get_isochrone.
  rewrite cache_key_get_isochrone, Hmiss. simpl. rewrite Hok. done.
Qed.

Lemma get_isochrone_fail (c : Client) (lo la : Value) (seconds : Z) (w : world) (e : Err) :
  cache w !! [AValue lo; AValue la; AInt seconds] = None ->
  isochrones (log w) c (iso_query lo la seconds) = inr e ->
  get_isochrone isochrones c lo la seconds w
  = (Raised (ProviderError e),
     {| session := session w; cache := cache w;
        log := log w ++ [Request c (iso_query lo la seconds) (inr e)] |}).
Proof.
  intros Hmiss Hko. unfold get_isochrone.
  rewrite cache_key_get_isochrone, Hmiss. simpl. rewrite Hko. done.
Qed.

Lemma get_isochrone_cases (c : Client) (lo la : Value) (seconds : Z) (w w' : world)
    (r : Outcome Value Err Polygon) :
  get_isochrone isochrones c lo la seconds w = (r, w') ->
  (exists p, cache w !! [AValue lo; AValue la; AInt seconds] = Some p
             /\ r = Ret p /\ w' = w)
  \/ (exists p, cache w !! [AValue lo; AValue la; AInt seconds] = None
             /\ isochrones (log w) c (iso_query lo la seconds) = inl p
             /\ r = Ret p
             /\ w' = {| session := session w;
                        cache := <[ [AValue lo; AValue la; AInt seconds] := p ]> (cache w);
                        log := log w ++ [Request c (iso_query lo la seconds) (inl p)] |})
  \/ (exists e, cache w !! [AValue lo; AValue la; AInt seconds] = None
             /\ isochrones (log w) c (iso_query lo la seconds) = inr e
             /\ r = Raised (ProviderError e)
             /\ w' = {| session := session w; cache := cache w;
                        log := log w ++ [Request c (iso_query lo la seconds) (inr e)] |}).
Proof.
  intros Hcall.
  destruct (cache w !! [AValue lo; AValue la; AInt seconds]) as [p|] eqn:Hk.
  - rewrite (get_isochrone_hit _ _ _ _ _ p Hk) in Hcall. left. exists p. naive_solver.
  - destruct (isochrones (log w) c (iso_query lo la seconds)) as [p|e] eqn:Hr.
    + rewrite (get_isochrone_fetch _ _ _ _ _ p Hk Hr) in Hcall.
      right; left. exists p. naive_solver.
    + rewrite (get_isochrone_fail _ _ _ _ _ e Hk Hr) in Hcall.
      right; right. exists e. naive_solver.
Qed.

Lemma get_isochrone_files (c : Client) (lo la : Value) (seconds : Z) (w w' : world)
    (p : Polygon) :
  get_isochrone isochrones c lo la seconds w = (Ret p, w') ->
  cache w' !! [AValue lo; AValue la; AInt seconds] = Some p.
Proof.
  intros Hcall.
  destruct (get_isochrone_cases _ _ _ _ _ _ _ Hcall)
    as [(p0 & Hk & [= ->] & ->)|[(p0 & Hk & Hr & [= ->] & ->)|(e & _ & _ & [=] & _)]].
  - done.
  - simpl. apply lookup_insert_eq.
Qed.

Lemma get_isochrone_grows (c : Client) (lo la : Value) (seconds : Z) (w w' : world)
    (r : Outcome Value Err Polygon) :
  get_isochrone isochrones c lo la seconds w = (r, w') -> cache w ⊆ cache w'.
Proof.
  intros Hcall.
  destruct (get_isochrone_cases _ _ _ _ _ _ _ Hcall)
    as [(p0 & Hk & -> & ->)|[(p0 & Hk & Hr & -> & ->)|(e & _ & _ & -> & ->)]]; simpl; try done.
  by apply insert_subseteq.
Qed.

(** *** One overlay, case by case *)

Lemma overlay_cases (c : Client) (seconds : Z) (o : Overlay Value) (w : world) :
  overlay_step isochrones c seconds o w (overlay isochrones c seconds o w).
Proof.
  unfold overlay, mbind, M_bind.
  destruct (cache w !! overlay_key seconds o) as [p|] eqn:Hk.
  - rewrite (get_isochrone_hit _ _ _ _ _ p Hk).
    unfold emit, set_log; simpl. rewrite <- !app_assoc. simpl.
    by apply step_hit.
  - destruct (isochrones (log w) c (iso_query (at_lon o) (at_lat o) seconds)) as [p|e] eqn:Hr.
    + rewrite (get_isochrone_fetch _ _ _ _ _ p Hk Hr).
      unfold emit, set_log; simpl. rewrite <- !app_assoc. simpl.
      by apply step_fetch.
    + rewrite (get_isochrone_fail _ _ _ _ _ e Hk Hr).
      by apply step_fail.
Qed.

End Basics.

Section Tours.

Context {Value Polygon Err : Type} `{Countable Value}.
Variable isochrones :
  list (Event Value Polygon Err) -> Client -> IsoQuery Value -> Polygon + Err.

Local Abbreviation world := (World Value Polygon Err).
Local Abbreviation event := (Event Value Polygon Err).
Local Abbreviation tour c seconds os := (for_each os (overlay isochrones c seconds)).
Local Abbreviation tour_run := (tour_run isochrones).

Lemma tour_runs (c : Client) (seconds : Z) (os : list (Overlay Value)) (w : world) :
  tour_run c seconds os w (tour c seconds os w).
Proof.
  revert w. induction os as [|o os IH]; intros w; simpl.
  - apply tour_nil.
  - unfold mbind, M_bind.
    pose proof (overlay_cases isochrones c seconds o w) as Hstep.
    destruct (overlay isochrones c seconds o w) as [[[]| |e] w1].
    + eapply tour_next; [exact Hstep | apply IH].
    + inversion Hstep.
    + by apply tour_abort.
Qed.

Lemma tour_run_session c seconds os w rw :
  tour_run c seconds os w rw -> session rw.2 = session w.
Proof.
  induction 1 as [w|o os w w1 rw Hstep _ IH|o os w e w1 Hstep]; [done| |].
  - rewrite IH. by inversion Hstep.
  - by inversion Hstep.
Qed.

Lemma tour_run_cache c seconds os w rw :
  tour_run c seconds os w rw -> cache w ⊆ cache rw.2.
Proof.
  induction 1 as [w|o os w w1 rw Hstep _ IH|o os w e w1 Hstep]; [done| |].
  - etrans; [|exact IH]. inversion Hstep; subst; simpl; [done|].
    by apply insert_subseteq.
  - by inversion Hstep.
Qed.

(** What a tour adds to the trace, whatever its outcome. *)
Lemma tour_run_log c seconds os w rw :
  tour_run c seconds os w rw ->
  exists d, log rw.2 = log w ++ d
    /\ count is_client d = 0
    /\ count is_layer d = count is_sleep d
    /\ count is_marker d = count is_sleep d
    /\ count is_success d <= count is_sleep d
    /\ count is_sleep d <= length os.
Proof.
  induction 1 as [w|o os w w1 rw Hstep _ IH|o os w e w1 Hstep].
  - exists []. simpl. rewrite app_nil_r. repeat split; lia.
  - destruct IH as (d & Hd & Hc & Hy & Hm & Hs & Hl).
    inversion Hstep as [p Hk Ew|p Hk Hr Ew|]; subst; simpl in *.
    + exists (drawn o p ++ d). rewrite Hd, <- app_assoc, !count_app. simpl.
      repeat split; lia.
    + exists ((Request c (iso_query (at_lon o) (at_lat o) seconds) (inl p) :: drawn o p) ++ d).
      rewrite Hd, <- app_assoc, !count_app. simpl. repeat split; lia.
  - inversion Hstep as [| |e' Hk Hr Ew]; subst; simpl.
    exists [Request c (iso_query (at_lon o) (at_lat o) seconds) (inr e')]. simpl.
    repeat split; lia.
Qed.

Lemma fresh_key_size (k : list (Arg Value)) (S D : gset (list (Arg Value))) :
  k ∉ D ->
  size (({[k]} ∪ S) ∖ D) = 1 + size (S ∖ ({[k]} ∪ D)).
Proof.
  intros Hk.
  replace (({[k]} ∪ S) ∖ D) with ({[k]} ∪ (S ∖ ({[k]} ∪ D))).
  - rewrite size_union by set_solver. by rewrite size_singleton.
  - apply set_eq. intros x. rewrite !elem_of_union, !elem_of_difference, !elem_of_union,
      !elem_of_singleton.
    destruct (decide (x = k)) as [->|]; naive_solver.
Qed.

(** What a tour that reaches its end adds to the trace and to the cache. *)
Lemma tour_run_done c seconds os w w' :
  tour_run c seconds os w (Ret tt, w') ->
  exists d, log w' = log w ++ d
    /\ count is_sleep d = length os
    /\ count is_layer d = length os
    /\ count is_marker d = length os
    /\ count is_request d
       = size (list_to_set (map (overlay_key seconds) os) ∖ dom (cache w))
    /\ count is_success d = count is_request d
    /\ dom (cache w') = dom (cache w) ∪ list_to_set (map (overlay_key seconds) os).
Proof.
  intros Hrun. remember (Ret tt, w') as rw eqn:E. revert E.
  induction Hrun as [w|o os w w1 rw Hstep _ IH|o os w e w1 Hstep]; intros E.
  - injection E as <-. exists []. simpl. rewrite app_nil_r.
    repeat split; [|set_solver].
    replace (∅ ∖ dom (cache w)) with (∅ : gset (list (Arg Value))) by set_solver.
    done.
  - destruct (IH E) as (d & Hd & Hs & Hy & Hm & Hq & Hok & Hdom). clear IH.
    inversion Hstep as [p Hk Ew|p Hk Hr Ew|]; subst; simpl in *.
    + exists (drawn o p ++ d). rewrite Hd, <- app_assoc, !count_app. simpl.
      assert (overlay_key seconds o ∈ dom (cache w)) as Hin
        by (apply elem_of_dom; eauto).
      repeat split; [lia|lia|lia| |lia|set_solver].
      rewrite Hq. f_equal. set_solver.
    + exists ((Request c (iso_query (at_lon o) (at_lat o) seconds) (inl p) :: drawn o p) ++ d).
      rewrite Hd, <- app_assoc, !count_app. simpl.
      assert (overlay_key seconds o ∉ dom (cache w)) as Hin
        by (by apply not_elem_of_dom).
      rewrite dom_insert_L in Hq, Hdom.
      repeat split; [lia|lia|lia| |lia|set_solver].
      rewrite Hq. by rewrite fresh_key_size.
  - done.
Qed.




End Tours.

Section Colours.

Context {Value : Type} `{Countable Value}.

(** *** Dictionaries *)

Lemma dict_get_set_eq {V} (k : Value) (v : V) (d : list (Value * V)) :
  dict_get k (dict_set k v d) = Some v.
Proof.
  induction d as [|[k' v'] d IH]; simpl.
  - by rewrite decide_True.
  - destruct (decide (k' = k)) as [->|Hne]; simpl.
    + by rewrite decide_True.
    + by rewrite decide_False.
Qed.

Lemma dict_get_set_ne {V} (k k' : Value) (v : V) (d : list (Value * V)) :
  k <> k' -> dict_get k' (dict_set k v d) = dict_get k' d.
Proof.
  intros Hne. induction d as [|[k0 v0] d IH]; simpl.
  - by rewrite decide_False.
  - destruct (decide (k0 = k)) as [->|Hne0]; simpl.
    + by rewrite !decide_False.
    + destruct (decide (k0 = k')); [done|apply IH].
Qed.

(** *** [unique] *)

Lemma elem_of_unique_from (seen l : list Value) (x : Value) :
  x ∈ unique_from seen l <-> x ∈ l /\ x ∉ seen.
Proof.
  revert seen. induction l as [|y l IH]; intros seen; simpl.
  - split; [by intros ?%elem_of_nil|by intros [?%elem_of_nil _]].
  - destruct (decide (y ∈ seen)) as [Hin|Hout].
    + rewrite IH, elem_of_cons. split; [naive_solver|].
      intros [[->|Hx] Hs]; [done|by split].
    + rewrite !elem_of_cons, IH, elem_of_cons. split.
      * intros [->|[Hx Hs]]; [by split; [left|]|]. split; [by right|]. tauto.
      * intros [[->|Hx] Hs]; [by left|].
        destruct (decide (x = y)) as [->|Hne]; [by left|right]. split; [done|].
        intros [?|?]; done.
Qed.

Lemma NoDup_unique_from (seen l : list Value) : NoDup (unique_from seen l).
Proof.
  revert seen. induction l as [|y l IH]; intros seen; simpl.
  - constructor.
  - destruct (decide (y ∈ seen)); [apply IH|].
    constructor; [|apply IH].
    rewrite elem_of_unique_from, elem_of_cons. tauto.
Qed.

Lemma elem_of_unique (l : list Value) (x : Value) : x ∈ unique l <-> x ∈ l.
Proof.
  unfold unique. rewrite elem_of_unique_from. split; [tauto|].
  intros Hx; split; [done|]. apply not_elem_of_nil.
Qed.

Lemma NoDup_unique (l : list Value) : NoDup (unique l).
Proof. apply NoDup_unique_from. Qed.

(** *** The colour table *)

Local Abbreviation paint := (fun (d : list (Value * string)) '(i, name) =>
  dict_set name (colormap (i mod colormap_N)) d).

Lemma paint_frame (names : list Value) (start : nat) (d : list (Value * string)) (k : Value) :
  k ∉ names ->
  dict_get k (foldl paint d (enumerate_from start names)) = dict_get k d.
Proof.
  revert start d. induction names as [|u names IH]; intros start d Hk;
    cbn [enumerate_from foldl]; [done|].
  apply not_elem_of_cons in Hk as [Hne Hk].
  rewrite IH by done. by apply dict_get_set_ne.
Qed.

Lemma paint_lookup (names : list Value) (start : nat) (d : list (Value * string))
    (i : nat) (g : Value) :
  NoDup names -> names !! i = Some g ->
  dict_get g (foldl paint d (enumerate_from start names))
  = Some (colormap ((start + i) mod colormap_N)).
Proof.
  revert start d i. induction names as [|u names IH]; intros start d i Hnd Hi; [done|].
  apply NoDup_cons in Hnd as [Hu Hnd]. cbn [enumerate_from foldl].
  destruct i as [|i]; simpl in Hi.
  - injection Hi as ->. rewrite paint_frame by done.
    rewrite dict_get_set_eq. by rewrite Nat.add_0_r.
  - rewrite (IH (S start) _ i) by done.
    by replace (start + S i) with (S start + i) by lia.
Qed.

Lemma assign_colors_lookup (names : list Value) (i : nat) (g : Value) :
  NoDup names -> names !! i = Some g ->
  dict_get g (assign_colors names) = Some (colormap (i mod colormap_N)).
Proof. intros Hnd Hi. unfold assign_colors, enumerate. by rewrite (paint_lookup _ 0 _ i). Qed.

Lemma colormap_in_range (i : nat) :
  i < colormap_N -> tab20 !! i = Some (colormap i).
Proof.
  intros Hi. unfold colormap.
  destruct (nth_lookup_or_length tab20 i "#9edae5") as [E|E]; [done|].
  unfold colormap_N in Hi. lia.
Qed.

Lemma company_colors_total (companies_df : DataFrame Value) (row : Row Value) :
  row ∈ iterrows companies_df ->
  is_Some (dict_get (row "Company Name") (company_colors companies_df)).
Proof.
  intros Hrow. unfold company_colors.
  assert (row "Company Name" ∈ unique (column "Company Name" companies_df)) as Hin.
  { apply elem_of_unique. unfold column. apply list_elem_of_fmap. by exists row. }
  apply list_elem_of_lookup in Hin as [i Hi].
  rewrite (assign_colors_lookup _ i) by (done || apply NoDup_unique). eauto.
Qed.

(** *** The column checks *)

Lemma assert_columns_missing (msg : string -> string) (cols : list string)
    (df : DataFrame Value) (col : string) :
  col ∈ cols -> col ∉ columns df ->
  exists named, named ∈ cols /\ (named ∉ columns df)
                /\ assert_columns msg cols df = Some (msg named).
Proof.
  induction cols as [|c cols IH]; intros Hin Hout; [by apply elem_of_nil in Hin|].
  simpl. destruct (decide (c ∈ columns df)) as [Hc|Hc].
  - apply elem_of_cons in Hin as [->|Hin]; [done|].
    destruct (IH Hin Hout) as (named & Hn & Hm & Ha).
    exists named. split; [by right|done].
  - exists c. split; [by left|done].
Qed.

Lemma assert_columns_some (msg : string -> string) (cols : list string)
    (df : DataFrame Value) (e : string) :
  assert_columns msg cols df = Some e ->
  exists named, named ∈ cols /\ (named ∉ columns df) /\ e = msg named.
Proof.
  induction cols as [|c cols IH]; simpl; [done|].
  destruct (decide (c ∈ columns df)) as [Hc|Hc].
  - intros (named & Hn & Hm & He)%IH. exists named. split; [by right|done].
  - intros [= <-]. exists c. split; [by left|done].
Qed.

(** C7.  The colour of a group depends only on its rank among the
    distinct group names, taken in order of first appearance: the group
    of rank [i] gets entry [i mod 20] of the twenty-colour palette.  Every
    row therefore finds a colour, two files with the same ordered list of
    distinct groups get the same table, and two groups whose ranks agree
    modulo 20 share a colour. *)
Theorem company_colors_by_rank (companies_df : DataFrame Value) :
  colormap_N = 20
  /\ (forall i g,
        unique (column "Company Name" companies_df) !! i = Some g ->
        dict_get g (company_colors companies_df) = tab20 !! (i mod colormap_N)
        /\ is_Some (tab20 !! (i mod colormap_N)))
  /\ (forall row, row ∈ iterrows companies_df ->
        is_Some (dict_get (row "Company Name") (company_colors companies_df)))
  /\ (forall other_df,
        unique (column "Company Name" other_df) = unique (column "Company Name" companies_df) ->
        company_colors other_df = company_colors companies_df)
  /\ (forall i j g h,
        unique (column "Company Name" companies_df) !! i = Some g ->
        unique (column "Company Name" companies_df) !! j = Some h ->
        i mod colormap_N = j mod colormap_N ->
        dict_get g (company_colors companies_df) = dict_get h (company_colors companies_df)).
Proof.
  split; [done|]. split; [|split; [|split]].
  - intros i g Hi. unfold company_colors.
    rewrite (assign_colors_lookup _ i) by (done || apply NoDup_unique).
    assert (i mod colormap_N < colormap_N) as Hlt by (by apply Nat.mod_upper_bound).
    rewrite (colormap_in_range _ Hlt). eauto.
  - intros row Hrow. by apply company_colors_total.
  - intros other_df Heq. unfold company_colors. by rewrite Heq.
  - intros i j g h Hi Hj Hmod. unfold company_colors.
    rewrite (assign_colors_lookup _ i), (assign_colors_lookup _ j)
      by (done || apply NoDup_unique).
    by rewrite Hmod.
Qed.

End Colours.

Section Sessions.

Context {Value : Type} `{Countable Value}.
Variable str : Value -> string.

(** *** The competitor records of a session *)

Lemma setdefault_keeps (k k' : Value) (v : bool) (m : gmap Value bool) :
  is_Some (m !! k) -> setdefault k' v m !! k = m !! k.
Proof.
  intros [b Hb]. unfold setdefault. destruct (m !! k') eqn:Hk'; [done|].
  rewrite lookup_insert_ne; [done|]. intros ->. congruence.
Qed.

Lemma setdefault_listed (k : Value) (v : bool) (m : gmap Value bool) :
  is_Some (setdefault k v m !! k).
Proof.
  unfold setdefault. destruct (m !! k) eqn:Hk; [by rewrite Hk|].
  rewrite lookup_insert_eq. eauto.
Qed.

Lemma setdefault_true (k : Value) (m : gmap Value bool) :
  (forall c b, m !! c = Some b -> b = true) ->
  forall c b, setdefault k true m !! c = Some b -> b = true.
Proof.
  intros Hm c b. unfold setdefault. destruct (m !! k) eqn:Hk; [apply Hm|].
  destruct (decide (k = c)) as [->|Hne].
  - rewrite lookup_insert_eq. congruence.
  - rewrite lookup_insert_ne by done. apply Hm.
Qed.

Lemma competitors_project_sites (rows : list (Row Value)) (s : Session Value) :
  project_sites (foldl add_competitor s rows) = project_sites s.
Proof. revert s. induction rows as [|row rows IH]; intros s; simpl; [done|]. by rewrite IH. Qed.

Lemma competitors_api_key (rows : list (Row Value)) (s : Session Value) :
  api_key (foldl add_competitor s rows) = api_key s.
Proof. revert s. induction rows as [|row rows IH]; intros s; simpl; [done|]. by rewrite IH. Qed.

Lemma competitors_keep (rows : list (Row Value)) (s : Session Value) (k : Value) :
  is_Some (competitor_visibility s !! k) ->
  competitor_visibility (foldl add_competitor s rows) !! k = competitor_visibility s !! k.
Proof.
  revert s. induction rows as [|row rows IH]; intros s Hk; simpl; [done|].
  rewrite IH; simpl; [by apply setdefault_keeps|].
  rewrite setdefault_keeps; done.
Qed.

Lemma competitors_listed (rows : list (Row Value)) (s : Session Value) (row : Row Value) :
  row ∈ rows ->
  is_Some (competitor_visibility (foldl add_competitor s rows) !! row "Company Location").
Proof.
  revert s. induction rows as [|r rows IH]; intros s Hrow; [by apply elem_of_nil in Hrow|].
  simpl. apply elem_of_cons in Hrow as [->|Hrow]; [|by apply IH].
  rewrite competitors_keep; simpl; apply setdefault_listed.
Qed.

Lemma competitors_all_visible (rows : list (Row Value)) (s : Session Value) :
  all_visible s -> all_visible (foldl add_competitor s rows).
Proof.
  revert s. induction rows as [|r rows IH]; intros s Hs; simpl; [done|].
  apply IH. unfold all_visible. simpl. by apply setdefault_true.
Qed.

(** *** The session between the check boxes and the loops *)

Lemma with_key_visibility (inp : Inputs Value) (s : Session Value) :
  competitor_visibility (with_key inp s) = competitor_visibility s.
Proof. unfold with_key. by destruct (truthy (api_key_input inp)). Qed.

Lemma with_key_project_sites (inp : Inputs Value) (s : Session Value) :
  project_sites (with_key inp s) = project_sites s.
Proof. unfold with_key. by destruct (truthy (api_key_input inp)). Qed.

Lemma ready_project_sites (inp : Inputs Value) (cdf pdf : DataFrame Value) (s : Session Value) :
  project_sites (ready str inp cdf pdf s)
  = map (tick str inp) (populate_project_sites pdf (project_sites s)).
Proof. unfold ready. simpl. by rewrite competitors_project_sites. Qed.

Lemma ready_listed (inp : Inputs Value) (cdf pdf : DataFrame Value) (s : Session Value)
    (row : Row Value) :
  row ∈ iterrows cdf ->
  is_Some (competitor_visibility (ready str inp cdf pdf s) !! row "Company Location").
Proof. intros Hrow. unfold ready. simpl. by apply competitors_listed. Qed.

Lemma ready_all_visible (inp : Inputs Value) (cdf pdf : DataFrame Value) (s : Session Value) :
  all_visible s -> all_visible (ready str inp cdf pdf s).
Proof.
  intros Hs. unfold ready, all_visible. simpl.
  apply (competitors_all_visible (iterrows cdf)
           (set_project_sites (populate_project_sites pdf (project_sites s)) s)).
  exact Hs.
Qed.

Lemma next_session_all_visible (inp : Inputs Value) (s : Session Value) :
  all_visible s -> all_visible (next_session str inp s).
Proof.
  intros Hs.
  assert (all_visible (with_key inp s)) as Hk.
  { unfold all_visible. by rewrite with_key_visibility. }
  unfold next_session. simpl.
  destruct (truthy (api_key (with_key inp s))); [|done].
  destruct (uploaded_file inp) as [up|]; [|done].
  destruct (load up) as [e|[cdf pdf]]; [done|].
  by apply ready_all_visible.
Qed.

(** *** Running the session steps a second time *)

Lemma populate_kept (pdf : DataFrame Value) (sites : list (Value * ProjectSite Value)) :
  sites <> [] -> populate_project_sites pdf sites = sites.
Proof. by destruct sites. Qed.



Lemma tick_untouched (inp : Inputs Value) (sites : list (Value * ProjectSite Value)) :
  (forall l b, checkbox inp l b = b) -> map (tick str inp) sites = sites.
Proof.
  intros Hsame. rewrite <- (map_id sites) at 2. apply map_ext. intros [pname [la lo v]].
  simpl. by rewrite Hsame.
Qed.

Lemma tick_place (inp : Inputs Value) (sites : list (Value * ProjectSite Value)) :
  map (fun it : Value * ProjectSite Value => (it.1, lat it.2, lon it.2)) (map (tick str inp) sites)
  = map (fun it : Value * ProjectSite Value => (it.1, lat it.2, lon it.2)) sites.
Proof. rewrite map_map. apply map_ext. by intros [pname pdata]. Qed.


Lemma ready_api_key (inp : Inputs Value) (cdf pdf : DataFrame Value) (s : Session Value) :
  api_key (ready str inp cdf pdf s) = api_key s.
Proof. unfold ready. simpl. by rewrite competitors_api_key. Qed.

Lemma ready_keeps (inp : Inputs Value) (cdf pdf : DataFrame Value) (s : Session Value) (k : Value) :
  is_Some (competitor_visibility s !! k) ->
  competitor_visibility (ready str inp cdf pdf s) !! k = competitor_visibility s !! k.
Proof. intros Hk. unfold ready. simpl. by rewrite competitors_keep. Qed.

Lemma ready_rows_true (inp : Inputs Value) (cdf pdf : DataFrame Value) (s : Session Value)
    (row : Row Value) :
  all_visible s -> row ∈ iterrows cdf ->
  competitor_visibility (ready str inp cdf pdf s) !! row "Company Location" = Some true.
Proof.
  intros Hs Hrow. destruct (ready_listed inp cdf pdf s row Hrow) as [b Hb].
  by rewrite Hb, (ready_all_visible inp cdf pdf s Hs _ _ Hb).
Qed.

Lemma filter_all {A} (f : A -> bool) (l : list A) :
  (forall x, x ∈ l -> f x = true) -> List.filter f l = l.
Proof.
  induction l as [|x l IH]; intros Hall; simpl; [done|].
  rewrite (Hall x) by (by left). f_equal. apply IH. intros y Hy. apply Hall. by right.
Qed.


End Sessions.

Section Loops.

Context {Value Polygon Err : Type} `{Countable Value}.
Variable isochrones :
  list (Event Value Polygon Err) -> Client -> IsoQuery Value -> Polygon + Err.
Variable str : Value -> string.

Local Abbreviation world := (World Value Polygon Err).
Local Abbreviation event := (Event Value Polygon Err).
Local Abbreviation tour c seconds os := (for_each os (overlay isochrones c seconds)).

Lemma for_each_app {A} (xs ys : list A) (body : A -> M Value Polygon Err unit) (w : world) :
  for_each (xs ++ ys) body w = (for_each xs body ;; for_each ys body) w.
Proof.
  revert w. induction xs as [|x xs IH]; intros w; simpl; [done|].
  unfold mbind, M_bind in *. destruct (body x w) as [[[]| |e] w1]; [apply IH|done|done].
Qed.

(** *** The project loop is a tour *)

Lemma project_loop_tour (c : Client) (minutes seconds : Z)
    (sites : list (Value * ProjectSite Value)) (w : world) :
  for_each sites (project_isochrone isochrones str c minutes seconds) w
  = tour c seconds (project_overlays str minutes sites) w.
Proof.
  revert w. induction sites as [|[pname pdata] sites IH]; intros w; [done|].
  unfold project_overlays. cbn [for_each List.filter]. unfold shown at 1. cbn [snd].
  unfold mbind at 1, M_bind at 1. unfold project_isochrone at 1.
  destruct (visible pdata) eqn:Hv.
  - cbn [map for_each]. unfold mbind at 4, M_bind at 4.
    change (overlay isochrones c seconds (project_overlay str minutes (pname, pdata)) w)
      with ((iso ← get_isochrone isochrones c (lon pdata) (lat pdata) seconds;
             emit (GeoJson iso (Some (project_layer str pname minutes)) project_style) ;;
             emit (Marker [lat pdata; lon pdata] (str pname) project_icon) ;;
             emit (Sleep 1)) w).
    match goal with |- context [match ?m w with _ => _ end] => destruct (m w) as [[[]| |e] w1] end;
      [apply IH|done|done].
  - apply IH.
Qed.

Lemma project_isochrones_tour (c : Client) (minutes seconds : Z) (w : world) :
  project_isochrones isochrones str c minutes seconds w
  = tour c seconds (project_overlays str minutes (project_sites (session w))) w.
Proof. unfold project_isochrones. apply project_loop_tour. Qed.

(** *** The competitor loop is a tour, as long as nobody is hidden *)

Lemma overlay_session (c : Client) (seconds : Z) (o : Overlay Value) (w : world) :
  session (overlay isochrones c seconds o w).2 = session w.
Proof.
  pose proof (overlay_cases isochrones c seconds o w) as Hstep.
  by inversion Hstep.
Qed.

Lemma competitor_step_overlay (c : Client) (colors : list (Value * string)) (seconds : Z)
    (row : Row Value) (w : world) :
  competitor_visibility (session w) !! row "Company Location" = Some true ->
  is_Some (dict_get (row "Company Name") colors) ->
  competitor_isochrone isochrones str c colors seconds row w
  = overlay isochrones c seconds (company_overlay str colors row) w.
Proof.
  intros Hvis [col Hcol].
  unfold competitor_isochrone, overlay, company_overlay, mbind, M_bind, get_session.
  rewrite Hvis, Hcol. simpl. done.
Qed.

Lemma competitor_step_hidden (c : Client) (colors : list (Value * string)) (seconds : Z)
    (row : Row Value) (w : world) :
  competitor_visibility (session w) !! row "Company Location" = Some false ->
  competitor_isochrone isochrones str c colors seconds row w = (Ret tt, w).
Proof.
  intros Hvis. unfold competitor_isochrone, mbind, M_bind, get_session. by rewrite Hvis.
Qed.

Lemma competitor_loop_tour (c : Client) (colors : list (Value * string)) (seconds : Z)
    (rows : list (Row Value)) (w : world) :
  (forall row, row ∈ rows ->
     is_Some (competitor_visibility (session w) !! row "Company Location")) ->
  (forall row, row ∈ rows -> is_Some (dict_get (row "Company Name") colors)) ->
  for_each rows (competitor_isochrone isochrones str c colors seconds) w
  = tour c seconds (map (company_overlay str colors) (List.filter (row_visible (session w)) rows)) w.
Proof.
  revert w. induction rows as [|row rows IH]; intros w Hvis Hcol; [done|].
  cbn [for_each List.filter]. unfold mbind at 1, M_bind at 1.
  destruct (Hvis row) as [b Hb]; [by left|].
  unfold row_visible at 1. rewrite Hb. destruct b.
  - cbn [map for_each]. unfold mbind, M_bind.
    rewrite competitor_step_overlay by (done || apply Hcol; left).
    pose proof (overlay_session c seconds (company_overlay str colors row) w) as Hs.
    destruct (overlay isochrones c seconds (company_overlay str colors row) w)
      as [[[]| |e] w1]; [|done|done].
    simpl in Hs. rewrite <- Hs. apply IH.
    + intros r Hr. rewrite Hs. apply Hvis. by right.
    + intros r Hr. apply Hcol. by right.
  - rewrite competitor_step_hidden by done. apply IH.
    + intros r Hr. apply Hvis. by right.
    + intros r Hr. apply Hcol. by right.
Qed.

End Loops.

Section Script.

Context {Value Polygon Err : Type} `{Countable Value}.
Variable isochrones :
  list (Event Value Polygon Err) -> Client -> IsoQuery Value -> Polygon + Err.
Variable mean : list Value -> Value.
Variable str : Value -> string.

Local Abbreviation world := (World Value Polygon Err).
Local Abbreviation event := (Event Value Polygon Err).
Local Abbreviation tour c seconds os := (for_each os (overlay isochrones c seconds)).
Local Abbreviation get_isochrone := (get_isochrone isochrones).
Local Abbreviation script := (script isochrones mean str).
Local Abbreviation run := (run isochrones mean str).
Local Abbreviation interact := (interact isochrones mean str).
Local Abbreviation pass := (pass isochrones mean str).
Local Abbreviation later := (later isochrones mean str).
Local Abbreviation stage := (stage mean str).

(** *** Lines 96-170 as a tour between two fixed ends *)

Lemma render_tour (c : Client) (inp : Inputs Value) (companies_df : DataFrame Value) (w : world) :
  (forall row, row ∈ iterrows companies_df ->
     is_Some (competitor_visibility (session w) !! row "Company Location")) ->
  render isochrones mean str c inp companies_df w
  = match tour c (manual_minutes inp * 60)
            (overlays str (manual_minutes inp) companies_df (session w))
            (set_log (fun l => l ++ [map_created mean companies_df]) w) with
    | (Ret _, w') => (Ret tt, set_log (fun l => l ++ shown_at_last str companies_df) w')
    | (Stopped, w') => (Stopped, w')
    | (Raised e, w') => (Raised e, w')
    end.
Proof.
  intros Hvis. unfold render, overlays, map_init.
  set (w0 := set_log (fun l => l ++ [map_created mean companies_df]) w).
  unfold mbind at 1, M_bind at 1. unfold emit at 1. fold (map_created (Polygon := Polygon) (Err := Err) mean companies_df). fold w0.
  rewrite for_each_app.
  unfold mbind at 1, M_bind at 1. rewrite project_isochrones_tour.
  change (session w0) with (session w).
  unfold mbind at 2, M_bind at 2.
  pose proof (tour_runs isochrones c (manual_minutes inp * 60)
    (project_overlays str (manual_minutes inp) (project_sites (session w))) w0) as Hrun.
  apply tour_run_session in Hrun.
  destruct (tour c (manual_minutes inp * 60)
    (project_overlays str (manual_minutes inp) (project_sites (session w))) w0)
    as [[[]| |e] w1]; [|done|done].
  simpl in Hrun.
  unfold mbind at 1, M_bind at 1. unfold competitor_isochrones, company_overlays.
  rewrite competitor_loop_tour.
  - rewrite Hrun.
    destruct (tour c (manual_minutes inp * 60)
      (map (company_overlay str (company_colors companies_df))
           (List.filter (row_visible (session w)) (iterrows companies_df))) w1)
      as [[[]| |e] w2]; [|done|done].
    unfold display, mbind, M_bind, emit, set_log, shown_at_last. simpl.
    by rewrite <- app_assoc.
  - intros row Hrow. rewrite Hrun. by apply Hvis.
  - intros row Hrow. by apply company_colors_total.
Qed.

(** *** The whole script, branch by branch *)

Lemma script_unfold (inp : Inputs Value) (w : world) :
  script inp w
  = let s1 := with_key inp (session w) in
    if truthy (api_key s1) then
      let w1 := {| session := s1; cache := cache w;
                   log := log w ++ [ClientCreated (api_key s1)] |} in
      match uploaded_file inp with
      | None => (Stopped, set_log (fun l => l ++ [Info upload_info]) w1)
      | Some up =>
          match load up with
          | inl e => (Stopped, set_log (fun l => l ++ [Error (load_error e)]) w1)
          | inr (companies_df, projects_df) =>
              render isochrones mean str {| key := api_key s1 |} inp companies_df
                (set_session (ready str inp companies_df projects_df) w1)
          end
      end
    else (Stopped, {| session := s1; cache := cache w;
                      log := log w ++ [Warning api_key_warning] |}).
Proof.
  unfold script, api_key_widget, check_api_key, with_key.
  destruct (truthy (api_key_input inp)) eqn:Hin;
    unfold mbind, M_bind, modify_session, get_session, mret, M_ret; simpl;
    match goal with |- context [truthy ?k] => destruct (truthy k) eqn:Hk end; simpl; try done.
  all: unfold file_uploader; destruct (uploaded_file inp) as [up|]; simpl; try done.
  all: unfold load_and_validate; destruct (load up) as [e|[cdf pdf]]; simpl; try done.
Qed.

(** *** A rendering run, from the stage to the legend *)

Lemma script_render (inp : Inputs Value) (w : world) (up : Upload Value)
    (cdf pdf : DataFrame Value) :
  truthy (api_key (with_key inp (session w))) = true ->
  uploaded_file inp = Some up ->
  load up = inr (cdf, pdf) ->
  script inp w
  = match tour {| key := api_key (with_key inp (session w)) |} (manual_minutes inp * 60)
            (overlays str (manual_minutes inp) cdf (session (stage inp cdf pdf w)))
            (stage inp cdf pdf w) with
    | (Ret _, w') => (Ret tt, set_log (fun l => l ++ shown_at_last str cdf) w')
    | (Stopped, w') => (Stopped, w')
    | (Raised e, w') => (Raised e, w')
    end.
Proof.
  intros Hkey Hup Hload. rewrite script_unfold. simpl. rewrite Hkey, Hup, Hload.
  rewrite render_tour.
  - unfold stage, set_log, set_session. simpl. by rewrite <- app_assoc.
  - intros row Hrow. unfold set_session. cbn [session]. by apply ready_listed.
Qed.

(** A run that does not stop has got past the key, the upload and the loader. *)
Lemma script_goes_on (inp : Inputs Value) (w : world) :
  (script inp w).1 <> Stopped ->
  exists up cdf pdf,
    truthy (api_key (with_key inp (session w))) = true
    /\ uploaded_file inp = Some up
    /\ load up = inr (cdf, pdf).
Proof.
  rewrite script_unfold. simpl.
  destruct (truthy (api_key (with_key inp (session w)))) eqn:Hkey; [|done].
  destruct (uploaded_file inp) as [up|] eqn:Hup; [|done].
  destruct (load up) as [msg|[cdf pdf]] eqn:Hload; [done|].
  intros _. by exists up, cdf, pdf.
Qed.

(** *** What every run does to the session, the cache and the trace *)

Lemma run_session (inp : Inputs Value) (w : world) :
  session (run inp w) = next_session str inp (session w).
Proof.
  unfold run, next_session. simpl.
  destruct (truthy (api_key (with_key inp (session w)))) eqn:Hkey;
    [|by rewrite script_unfold; simpl; rewrite Hkey].
  destruct (uploaded_file inp) as [up|] eqn:Hup;
    [|by rewrite script_unfold; simpl; rewrite Hkey, Hup].
  destruct (load up) as [e|[cdf pdf]] eqn:Hload;
    [by rewrite script_unfold; simpl; rewrite Hkey, Hup, Hload|].
  rewrite (script_render inp w up cdf pdf) by done.
  match goal with |- context [tour ?c ?s ?os ?w0] =>
    pose proof (tour_run_session _ _ _ _ _ _ (tour_runs isochrones c s os w0)) as Hs;
    destruct (tour c s os w0) as [[[]| |e] w1] end; simpl in *; by rewrite Hs.
Qed.

Lemma run_cache (inp : Inputs Value) (w : world) :
  cache w ⊆ cache (run inp w).
Proof.
  unfold run.
  destruct (truthy (api_key (with_key inp (session w)))) eqn:Hkey;
    [|by rewrite script_unfold; simpl; rewrite Hkey].
  destruct (uploaded_file inp) as [up|] eqn:Hup;
    [|by rewrite script_unfold; simpl; rewrite Hkey, Hup].
  destruct (load up) as [e|[cdf pdf]] eqn:Hload;
    [by rewrite script_unfold; simpl; rewrite Hkey, Hup, Hload|].
  rewrite (script_render inp w up cdf pdf) by done.
  match goal with |- context [tour ?c ?s ?os ?w0] =>
    pose proof (tour_run_cache _ _ _ _ _ _ (tour_runs isochrones c s os w0)) as Hs;
    destruct (tour c s os w0) as [[[]| |e] w1] end; simpl in *; done.
Qed.

Lemma later_cache (w w' : world) : later w w' -> cache w ⊆ cache w'.
Proof.
  induction 1 as [|w' s inp _ IH]; [done|].
  etrans; [exact IH|]. apply (run_cache inp (set_session (fun _ => s) w')).
Qed.

Lemma run_log (inp : Inputs Value) (w : world) :
  exists d, log (run inp w) = log w ++ d
    /\ count is_layer d = count is_sleep d
    /\ count is_marker d = count is_sleep d
    /\ count is_success d <= count is_sleep d.
Proof.
  unfold run.
  destruct (truthy (api_key (with_key inp (session w)))) eqn:Hkey;
    [|rewrite script_unfold; simpl; rewrite Hkey; simpl; eexists; split; [done|simpl; lia]].
  destruct (uploaded_file inp) as [up|] eqn:Hup;
    [|rewrite script_unfold; simpl; rewrite Hkey, Hup; simpl;
      rewrite <- app_assoc; eexists; split; [done|simpl; lia]].
  destruct (load up) as [e|[cdf pdf]] eqn:Hload;
    [rewrite script_unfold; simpl; rewrite Hkey, Hup, Hload; simpl;
      rewrite <- app_assoc; eexists; split; [done|simpl; lia]|].
  rewrite (script_render inp w up cdf pdf) by done.
  match goal with |- context [tour ?c ?s ?os ?w0] =>
    destruct (tour_run_log _ _ _ _ _ _ (tour_runs isochrones c s os w0))
      as (d & Hd & _ & Hy & Hm & Hs & _);
    destruct (tour c s os w0) as [[[]| |e] w1] end; simpl in *.
  - exists ([ClientCreated (api_key (with_key inp (session w))); map_created mean cdf]
            ++ d ++ shown_at_last str cdf).
    rewrite Hd, <- !app_assoc, !count_app. simpl. repeat split; lia.
  - exists ([ClientCreated (api_key (with_key inp (session w))); map_created mean cdf] ++ d).
    rewrite Hd, <- !app_assoc, !count_app. simpl. repeat split; lia.
  - exists ([ClientCreated (api_key (with_key inp (session w))); map_created mean cdf] ++ d).
    rewrite Hd, <- !app_assoc, !count_app. simpl. repeat split; lia.
Qed.

Lemma pass_log (inp : Inputs Value) (w : world) (d : list event) :
  log (run inp w) = log w ++ d -> pass inp w = d.
Proof. intros Hd. unfold pass. rewrite Hd. by rewrite drop_app_length. Qed.

Lemma stage_session (inp : Inputs Value) (cdf pdf : DataFrame Value) (w : world)
    (up : Upload Value) :
  truthy (api_key (with_key inp (session w))) = true ->
  uploaded_file inp = Some up ->
  load up = inr (cdf, pdf) ->
  session (stage inp cdf pdf w) = session (run inp w).
Proof.
  intros Hkey Hup Hload. rewrite run_session. unfold next_session. simpl.
  by rewrite Hkey, Hup, Hload.
Qed.

Lemma run_session_ready (inp : Inputs Value) (cdf pdf : DataFrame Value) (w : world)
    (up : Upload Value) :
  truthy (api_key (with_key inp (session w))) = true ->
  uploaded_file inp = Some up ->
  load up = inr (cdf, pdf) ->
  session (run inp w) = ready str inp cdf pdf (with_key inp (session w)).
Proof. intros Hkey Hup Hload. by rewrite <- (stage_session inp cdf pdf w up). Qed.

(** A rendering run that reaches its end. *)
Lemma pass_done (inp : Inputs Value) (w : world) (up : Upload Value) (cdf pdf : DataFrame Value) :
  truthy (api_key (with_key inp (session w))) = true ->
  uploaded_file inp = Some up ->
  load up = inr (cdf, pdf) ->
  (script inp w).1 = Ret tt ->
  let os := overlays str (manual_minutes inp) cdf (session (run inp w)) in
  let keys : gset (list (Arg Value)) :=
    list_to_set (map (overlay_key (manual_minutes inp * 60)) os) in
  count is_sleep (pass inp w) = length os
  /\ count is_layer (pass inp w) = length os
  /\ count is_marker (pass inp w) = length os
  /\ count is_request (pass inp w) = size (keys ∖ dom (cache w))
  /\ count is_success (pass inp w) = count is_request (pass inp w)
  /\ dom (cache (run inp w)) = dom (cache w) ∪ keys.
Proof.
  intros Hkey Hup Hload Hdone os keys. subst os keys.
  rewrite <- (stage_session inp cdf pdf w up) by done.
  unfold pass, run. revert Hdone.
  rewrite (script_render inp w up cdf pdf) by done.
  match goal with |- context [tour ?c ?s ?os ?w0] =>
    pose proof (tour_runs isochrones c s os w0) as Hrun;
    destruct (tour c s os w0) as [[[]| |e] w1] end; simpl; [intros _|done|done].
  apply tour_run_done in Hrun as (d & Hd & Hs & Hy & Hm & Hq & Hok & Hdom).
  simpl in Hd, Hs, Hy, Hm, Hq, Hdom. rewrite Hd, <- !app_assoc, drop_app_length.
  simpl. rewrite !count_app. simpl. rewrite Hs, Hy, Hm, Hok, Hq, Hdom.
  repeat split; lia.
Qed.



(** C1.  [get_isochrone] files its result under the exact triple
    (longitude, latitude, seconds) and keeps it as long as the process
    lives: once a call has returned a polygon, the same triple gives that
    polygon again, for any client and after any number of runs of any
    sessions, and the world (the trace included) is left as it was, so no
    request is sent.  A call with another duration keeps every entry that
    was there, files its own result under its own triple, and, when that
    triple was new, adds exactly that one entry. *)
Theorem get_isochrone_memoised (c : Client) (lo la : Value) (seconds : Z) (w w1 : world)
    (p : Polygon) :
  get_isochrone c lo la seconds w = (Ret p, w1) ->
  cache w1 !! [AValue lo; AValue la; AInt seconds] = Some p
  /\ (forall c' w2, later w1 w2 -> get_isochrone c' lo la seconds w2 = (Ret p, w2))
  /\ (forall c' seconds' r w2,
        seconds' <> seconds ->
        get_isochrone c' lo la seconds' w1 = (r, w2) ->
        (forall k q, cache w1 !! k = Some q -> cache w2 !! k = Some q)
        /\ forall p', r = Ret p' ->
             cache w2 !! [AValue lo; AValue la; AInt seconds'] = Some p'
             /\ (cache w1 !! [AValue lo; AValue la; AInt seconds'] = None ->
                 cache w2 = <[ [AValue lo; AValue la; AInt seconds'] := p' ]> (cache w1))).
Proof.
  intros Hcall. pose proof (get_isochrone_files _ _ _ _ _ _ _ _ Hcall) as Hfiled.
  split; [done|]. split.
  - intros c' w2 Hlater. apply get_isochrone_hit.
    apply later_cache in Hlater. by eapply lookup_weaken.
  - intros c' seconds' r w2 Hne Hcall'. split.
    + intros k q Hk. eapply lookup_weaken; [exact Hk|]. by eapply get_isochrone_grows.
    + intros p' ->. split; [by eapply get_isochrone_files|].
      intros Hnew.
      destruct (get_isochrone_cases _ _ _ _ _ _ _ _ Hcall')
        as [(p0 & Hk & _ & _)|[(p0 & Hk & Hr & [= ->] & ->)|(e & _ & _ & [=] & _)]];
        [congruence|done].
Qed.

(** C3, as the code has it.  The client is not part of the key: its
    parameter is named [_client], and [st.cache_data] leaves such
    parameters out, so the key is the triple alone whatever the
    credential.  Once a call has returned a polygon, a call with the same
    longitude, latitude and duration but any other client gets that same
    polygon from the cache, and sends no request. *)
Theorem cache_key_ignores_client (c1 c2 : Client) (lo la : Value) (seconds : Z)
    (w w1 : world) (p : Polygon) :
  get_isochrone c1 lo la seconds w = (Ret p, w1) ->
  cache_key get_isochrone_params [AClient c1; AValue lo; AValue la; AInt seconds]
    = [AValue lo; AValue la; AInt seconds]
  /\ cache_key get_isochrone_params [AClient c2; AValue lo; AValue la; AInt seconds]
    = [AValue lo; AValue la; AInt seconds]
  /\ get_isochrone c2 lo la seconds w1 = (Ret p, w1).
Proof.
  intros Hcall. split; [done|]. split; [done|].
  apply get_isochrone_hit. by eapply get_isochrone_files.
Qed.

(** C5.  When the key is there and the uploaded workbook lacks a
    required column, the run stops in the loader: the only things it adds
    to the trace are the construction of the client and one error whose
    text is "Error loading data: " followed by the failed assertion,
    which quotes a required column that the sheet does not have (the
    first one the checks meet).  The session is as the key box left it,
    the cache is untouched, no request is sent and nothing is drawn. *)
Theorem missing_column_stops (inp : Inputs Value) (w : world) (cdf pdf : DataFrame Value)
    (col : string) :
  truthy (api_key (with_key inp (session w))) = true ->
  uploaded_file inp = Some (Workbook cdf pdf) ->
  (col ∈ required_companies /\ col ∉ columns cdf)
  \/ (col ∈ required_projects /\ col ∉ columns pdf) ->
  exists named msg,
    ((named ∈ required_companies /\ (named ∉ columns cdf)
      /\ msg = "'Companies' sheet must include '" +:+ named +:+ "' column.")
     \/ (named ∈ required_projects /\ (named ∉ columns pdf)
         /\ msg = "'Projects' sheet must include '" +:+ named +:+ "' column."))
    /\ script inp w
       = (Stopped,
          {| session := with_key inp (session w);
             cache := cache w;
             log := log w ++ [ClientCreated (api_key (with_key inp (session w)));
                              Error ("❌ Error loading data: " +:+ msg)] |})
    /\ count is_request (pass inp w) = 0
    /\ count is_render (pass inp w) = 0.
Proof.
  intros Hkey Hup Hmiss.
  assert (exists named msg,
    ((named ∈ required_companies /\ (named ∉ columns cdf) /\ msg = companies_msg named)
     \/ (named ∈ required_projects /\ (named ∉ columns pdf) /\ msg = projects_msg named))
    /\ load (Workbook cdf pdf) = inl msg) as (named & msg & Hnamed & Hload).
  { unfold load.
    destruct (assert_columns companies_msg required_companies cdf) as [e|] eqn:Hc.
    - apply assert_columns_some in Hc as (named & Hn & Hm & ->).
      exists named, (companies_msg named). split; [left|]; done.
    - destruct Hmiss as [[Hin Hout]|[Hin Hout]].
      + destruct (assert_columns_missing companies_msg _ _ _ Hin Hout) as (n & _ & _ & Hn).
        congruence.
      + destruct (assert_columns_missing projects_msg _ _ _ Hin Hout) as (n & Hn & Hm & ->).
        exists n, (projects_msg n). split; [right|]; done. }
  exists named, msg. split; [exact Hnamed|].
  assert (script inp w
       = (Stopped,
          {| session := with_key inp (session w);
             cache := cache w;
             log := log w ++ [ClientCreated (api_key (with_key inp (session w)));
                              Error ("❌ Error loading data: " +:+ msg)] |})) as Hrun.
  { rewrite script_unfold. simpl. rewrite Hkey, Hup, Hload.
    unfold set_log. simpl. by rewrite <- app_assoc. }
  split; [exact Hrun|].
  unfold pass, run. rewrite Hrun. simpl. rewrite drop_app_length. done.
Qed.

(** C6.  As long as no key has been typed in a session that holds none,
    each run stops at the warning: over any number of interactions the
    only events are these warnings, the session and the cache stay as
    they were, no client is constructed and no request is sent. *)
Theorem no_key_no_request (inps : list (Inputs Value)) (w : world) :
  api_key (session w) = "" ->
  Forall (fun inp => api_key_input inp = "") inps ->
  interact inps w
    = set_log (fun l => l ++ replicate (length inps) (Warning api_key_warning)) w
  /\ count is_request (log (interact inps w)) = count is_request (log w)
  /\ count is_client (log (interact inps w)) = count is_client (log w)
  /\ forall inp, api_key_input inp = "" ->
       script inp (interact inps w)
       = (Stopped, set_log (fun l => l ++ [Warning api_key_warning]) (interact inps w)).
Proof.
  intros Hnone Hall.
  assert (forall inp (w0 : world), api_key (session w0) = "" -> api_key_input inp = "" ->
            script inp w0 = (Stopped, set_log (fun l => l ++ [Warning api_key_warning]) w0))
    as Hone.
  { intros inp w0 Hs Hi. rewrite script_unfold. unfold with_key. rewrite Hi. simpl.
    rewrite Hs. simpl. unfold set_log. by destruct w0. }
  assert (interact inps w
    = set_log (fun l => l ++ replicate (length inps) (Warning api_key_warning)) w) as Hrun.
  { revert w Hnone. induction Hall as [|inp inps Hinp _ IH]; intros w Hnone.
    - unfold set_log. simpl. rewrite app_nil_r. by destruct w.
    - unfold interact. cbn [foldl]. fold (interact inps (run inp w)).
      unfold run at 1. rewrite (Hone inp w Hnone Hinp). cbn [snd].
      rewrite IH by done. unfold set_log. simpl. by rewrite <- app_assoc. }
  split; [exact Hrun|]. rewrite Hrun. unfold set_log at 1 2. cbn [log]. rewrite !count_app.
  assert (forall n, count is_request (replicate n (@Warning Value Polygon Err api_key_warning)) = 0
                    /\ count is_client (replicate n (@Warning Value Polygon Err api_key_warning)) = 0)
    as Hrep by (induction n; simpl; done).
  destruct (Hrep (length inps)) as [-> ->].
  split; [lia|]. split; [lia|].
  intros inp Hinp. apply Hone; done.
Qed.


(** C10.  Once the session holds project sites, the loading step leaves
    them alone whatever file is uploaded: for every sheet of projects the
    population step returns the stored sites as they are, and across a
    whole run the stored names and coordinates stay the same, in the same
    order.  The only thing a run may change is the visibility flag, which
    takes the value of the site's check box; when the boxes are left as
    they are, the stored sites are exactly the same after the run. *)
Theorem project_sites_loaded_once (inp : Inputs Value) (w : world) :
  project_sites (session w) <> [] ->
  (forall projects_df,
     populate_project_sites projects_df (project_sites (session w)) = project_sites (session w))
  /\ map (fun it : Value * ProjectSite Value => (it.1, lat it.2, lon it.2))
         (project_sites (session (run inp w)))
     = map (fun it : Value * ProjectSite Value => (it.1, lat it.2, lon it.2))
         (project_sites (session w))
  /\ (project_sites (session (run inp w)) = project_sites (session w)
      \/ project_sites (session (run inp w)) = map (tick str inp) (project_sites (session w)))
  /\ ((forall l b, checkbox inp l b = b) ->
      project_sites (session (run inp w)) = project_sites (session w)).
Proof.
  intros Hsites.
  assert (project_sites (session (run inp w)) = project_sites (session w)
          \/ project_sites (session (run inp w)) = map (tick str inp) (project_sites (session w)))
    as Hcases.
  { rewrite run_session. unfold next_session. simpl.
    destruct (truthy (api_key (with_key inp (session w))));
      [|left; apply with_key_project_sites].
    destruct (uploaded_file inp) as [up|]; [|left; apply with_key_project_sites].
    destruct (load up) as [e|[cdf pdf]]; [left; apply with_key_project_sites|].
    right. rewrite ready_project_sites, with_key_project_sites.
    by rewrite populate_kept. }
  split; [intros pdf; by apply populate_kept|].
  split; [|split; [exact Hcases|]].
  - destruct Hcases as [->| ->]; [done|apply tick_place].
  - intros Hsame. destruct Hcases as [->| ->]; [done|by apply tick_untouched].
Qed.

Lemma interact_all_visible (inps : list (Inputs Value)) (w : world) :
  all_visible (session w) -> all_visible (session (interact inps w)).
Proof.
  revert w. induction inps as [|inp inps IH]; intros w Hw; [done|].
  unfold interact. cbn [foldl]. apply IH. rewrite run_session.
  by apply next_session_all_visible.
Qed.

(** C9.  A session starts with no competitor recorded, and whatever the
    user does afterwards every recorded competitor is marked visible.  So
    in any later run that gets to load a workbook, every company row
    finds its entry set to true, none is filtered out of what is drawn,
    and a run that reaches its end has put one marker per visible project
    site and one per company row. *)
Theorem competitors_never_hidden (inps : list (Inputs Value)) (w0 : world) (inp : Inputs Value) :
  session w0 = new_session ->
  all_visible (session (interact inps w0))
  /\ all_visible (session (run inp (interact inps w0)))
  /\ forall up cdf pdf,
       truthy (api_key (with_key inp (session (interact inps w0)))) = true ->
       uploaded_file inp = Some up ->
       load up = inr (cdf, pdf) ->
       (forall row, row ∈ iterrows cdf ->
          competitor_visibility (session (run inp (interact inps w0))) !! row "Company Location"
          = Some true)
       /\ company_overlays str cdf (session (run inp (interact inps w0)))
          = map (company_overlay str (company_colors cdf)) (iterrows cdf)
       /\ ((script inp (interact inps w0)).1 = Ret tt ->
           count is_marker (pass inp (interact inps w0))
           = length (List.filter shown (project_sites (session (run inp (interact inps w0)))))
             + length (iterrows cdf)).
Proof.
  intros Hnew.
  assert (all_visible (session (interact inps w0))) as Hvis.
  { apply interact_all_visible. rewrite Hnew. intros cname b. simpl. by rewrite lookup_empty. }
  set (w := interact inps w0) in *.
  split; [exact Hvis|]. split.
  { rewrite run_session. by apply next_session_all_visible. }
  intros up cdf pdf Hkey Hup Hload.
  assert (forall row, row ∈ iterrows cdf ->
          competitor_visibility (session (run inp w)) !! row "Company Location" = Some true)
    as Hrows.
  { intros row Hrow. rewrite (run_session_ready inp cdf pdf w up) by done.
    apply ready_rows_true; [|done]. unfold all_visible. by rewrite with_key_visibility. }
  assert (company_overlays str cdf (session (run inp w))
          = map (company_overlay str (company_colors cdf)) (iterrows cdf)) as Hall.
  { unfold company_overlays. rewrite filter_all; [done|].
    intros row Hrow. unfold row_visible. by rewrite (Hrows row Hrow). }
  split; [exact Hrows|]. split; [exact Hall|].
  intros Hdone.
  destruct (pass_done inp w up cdf pdf Hkey Hup Hload Hdone) as (_ & _ & -> & _).
  unfold overlays. rewrite Hall. unfold project_overlays.
  by rewrite length_app, !length_map.
Qed.



End Script.

(** * Further properties *)

Section Tables.

Context {Value : Type} `{Countable Value}.

(** *** The loader, column by column *)

Lemma assert_columns_none (msg : string -> string) (cols : list string) (df : DataFrame Value) :
  assert_columns msg cols df = None <-> forall col, col ∈ cols -> col ∈ columns df.
Proof.
  induction cols as [|c cols IH]; simpl.
  - split; [intros _ col Hc; by apply elem_of_nil in Hc|done].
  - destruct (decide (c ∈ columns df)) as [Hc|Hc].
    + rewrite IH. split.
      * intros Hall col [->|Hin]%elem_of_cons; [done|by apply Hall].
      * intros Hall col Hin. apply Hall. by right.
    + split; [done|]. intros Hall. exfalso. apply Hc, Hall. by left.
Qed.

Lemma assert_columns_first (msg : string -> string) (pre post : list string) (col : string)
    (df : DataFrame Value) :
  (forall c, c ∈ pre -> c ∈ columns df) -> col ∉ columns df ->
  assert_columns msg (pre ++ col :: post) df = Some (msg col).
Proof.
  induction pre as [|c pre IH]; intros Hpre Hcol; simpl.
  - by rewrite decide_False.
  - rewrite decide_True by (apply Hpre; left). apply IH; [|done].
    intros c' Hc'. apply Hpre. by right.
Qed.

(** X3.  The loader accepts a workbook exactly when the "Companies"
    sheet has its four required columns and the "Projects" sheet its
    three (other columns, and any column order, are fine), and then hands
    the two sheets over as they are; whatever pandas could not read is
    refused. *)
Theorem load_accepts_complete_workbooks (up : Upload Value) (cdf pdf : DataFrame Value) :
  load up = inr (cdf, pdf)
  <-> up = Workbook cdf pdf
      /\ (forall col, col ∈ required_companies -> col ∈ columns cdf)
      /\ (forall col, col ∈ required_projects -> col ∈ columns pdf).
Proof.
  destruct up as [cause|cdf0 pdf0]; unfold load; [split; [intros [=]|intros [[=] _]]|].
  destruct (assert_columns companies_msg required_companies cdf0) as [e|] eqn:Hc.
  - split; [done|]. intros ([= <- <-] & Hall & _).
    apply (assert_columns_none companies_msg) in Hall. congruence.
  - destruct (assert_columns projects_msg required_projects pdf0) as [e|] eqn:Hp.
    + split; [done|]. intros ([= <- <-] & _ & Hall).
      apply (assert_columns_none projects_msg) in Hall. congruence.
    + split.
      * intros [= <- <-]. split; [done|].
        split; [by apply (assert_columns_none companies_msg)
               |by apply (assert_columns_none projects_msg)].
      * by intros ([= <- <-] & _ & _).
Qed.

(** *** The colour table as a list *)

Lemma dict_set_fresh {V} (k : Value) (v : V) (d : list (Value * V)) :
  dict_get k d = None -> dict_set k v d = d ++ [(k, v)].
Proof.
  induction d as [|[k' v'] d IH]; simpl; [done|].
  destruct (decide (k' = k)); [done|]. intros Hk. by rewrite IH.
Qed.

Lemma dict_get_snoc_ne {V} (k k' : Value) (v : V) (d : list (Value * V)) :
  k <> k' -> dict_get k' (d ++ [(k, v)]) = dict_get k' d.
Proof.
  intros Hne. induction d as [|[k0 v0] d IH]; simpl.
  - by rewrite decide_False.
  - by destruct (decide (k0 = k')).
Qed.

Local Abbreviation paint := (fun (d : list (Value * string)) '(i, name) =>
  dict_set name (colormap (i mod colormap_N)) d).

Local Abbreviation painted := (fun '(i, name) => (name : Value, colormap (i mod colormap_N))).

Lemma paint_appends (names : list Value) (start : nat) (d : list (Value * string)) :
  NoDup names -> (forall k, k ∈ names -> dict_get k d = None) ->
  foldl paint d (enumerate_from start names) = d ++ map painted (enumerate_from start names).
Proof.
  revert start d. induction names as [|u names IH]; intros start d Hnd Hfresh;
    cbn [enumerate_from foldl map]; [by rewrite app_nil_r|].
  apply NoDup_cons in Hnd as [Hu Hnd].
  rewrite dict_set_fresh by (apply Hfresh; left).
  rewrite IH; [by rewrite <- app_assoc|done|].
  intros k Hk. rewrite dict_get_snoc_ne; [apply Hfresh; by right|].
  intros ->. done.
Qed.

Lemma enumerate_from_names {A} (l : list A) (start : nat) (f : nat -> string) :
  map fst (map (fun '(i, name) => (name, f i)) (enumerate_from start l)) = l.
Proof.
  revert start. induction l as [|x l IH]; intros start; simpl; [done|]. by rewrite IH.
Qed.

(** X7.  The colour table is the list of distinct group names, in order
    of first appearance, each paired with the palette entry of its rank
    modulo 20: its keys (the entries of the legend, in order) are exactly
    the distinct groups, once each. *)
Theorem company_colors_lists_groups (companies_df : DataFrame Value) :
  company_colors companies_df
  = map (fun '(i, name) => (name, colormap (i mod colormap_N)))
        (enumerate (unique (column "Company Name" companies_df)))
  /\ map fst (company_colors companies_df) = unique (column "Company Name" companies_df)
  /\ NoDup (map fst (company_colors companies_df))
  /\ forall g, g ∈ map fst (company_colors companies_df)
               <-> exists row, row ∈ iterrows companies_df /\ row "Company Name" = g.
Proof.
  assert (company_colors companies_df
          = map painted (enumerate (unique (column "Company Name" companies_df)))) as Htable.
  { unfold company_colors, assign_colors, enumerate.
    by rewrite paint_appends by (apply NoDup_unique || done). }
  assert (map fst (company_colors companies_df) = unique (column "Company Name" companies_df))
    as Hkeys.
  { rewrite Htable. unfold enumerate.
    apply (enumerate_from_names _ 0 (fun i => colormap (i mod colormap_N))). }
  split; [exact Htable|]. split; [exact Hkeys|]. rewrite Hkeys.
  split; [apply NoDup_unique|].
  intros g. rewrite elem_of_unique. unfold column. rewrite list_elem_of_fmap.
  split; intros (row & ? & ?); exists row; done.
Qed.

(** *** Filling the project store *)

Lemma unique_from_seen (seen seen' l : list Value) :
  (forall x, x ∈ seen <-> x ∈ seen') -> unique_from seen l = unique_from seen' l.
Proof.
  revert seen seen'. induction l as [|y l IH]; intros seen seen' Hsame; simpl; [done|].
  destruct (decide (y ∈ seen)) as [Hy|Hy]; destruct (decide (y ∈ seen')) as [Hy'|Hy'].
  - by apply IH.
  - by apply Hsame in Hy.
  - by apply Hsame in Hy'.
  - f_equal. apply IH. intros x. rewrite !elem_of_cons, Hsame. done.
Qed.

Lemma dict_get_keys {V} (k : Value) (d : list (Value * V)) :
  dict_get k d = None <-> k ∉ map fst d.
Proof.
  induction d as [|[k' v'] d IH]; simpl.
  - split; [intros _; apply not_elem_of_nil|done].
  - rewrite not_elem_of_cons. destruct (decide (k' = k)) as [->|Hne].
    + split; [done|]. by intros [? _].
    + rewrite IH. split; [by intros ?; split|by intros [_ ?]].
Qed.

Lemma dict_set_keys_old {V} (k : Value) (v : V) (d : list (Value * V)) :
  k ∈ map fst d -> map fst (dict_set k v d) = map fst d.
Proof.
  induction d as [|[k' v'] d IH]; simpl; [by intros ?%elem_of_nil|].
  destruct (decide (k' = k)) as [->|Hne]; [done|].
  intros [?|Hin]%elem_of_cons; [done|]. simpl. by rewrite IH.
Qed.

Lemma add_project_sites_keys (rows : list (Row Value)) (d : list (Value * ProjectSite Value)) :
  map fst (foldl add_project_site d rows)
  = map fst d ++ unique_from (map fst d) (map (fun row : Row Value => row "Project Name") rows).
Proof.
  revert d. induction rows as [|row rows IH]; intros d; cbn [foldl map unique_from];
    [by rewrite app_nil_r|].
  rewrite IH.
  destruct (decide (row "Project Name" ∈ map fst d)) as [Hin|Hout].
  - assert (map fst (add_project_site d row) = map fst d) as ->; [|done].
    unfold add_project_site. by rewrite dict_set_keys_old.
  - assert (map fst (add_project_site d row) = map fst d ++ [row "Project Name"]) as ->.
    { unfold add_project_site. rewrite dict_set_fresh by (by apply dict_get_keys).
      by rewrite map_app. }
    rewrite <- app_assoc. simpl. do 2 f_equal.
    apply unique_from_seen. intros x. rewrite elem_of_app, !elem_of_cons, elem_of_nil. tauto.
Qed.

Lemma add_project_sites_frame (rows : list (Row Value)) (d : list (Value * ProjectSite Value))
    (k : Value) :
  (forall row, row ∈ rows -> row "Project Name" <> k) ->
  dict_get k (foldl add_project_site d rows) = dict_get k d.
Proof.
  revert d. induction rows as [|row rows IH]; intros d Hk; simpl; [done|].
  rewrite IH by (intros r Hr; apply Hk; by right).
  unfold add_project_site. apply dict_get_set_ne. apply Hk. by left.
Qed.

Lemma dict_set_visible (k : Value) (site : ProjectSite Value)
    (d : list (Value * ProjectSite Value)) :
  visible site = true ->
  Forall (fun it : Value * ProjectSite Value => visible it.2 = true) d ->
  Forall (fun it : Value * ProjectSite Value => visible it.2 = true) (dict_set k site d).
Proof.
  intros Hv. induction 1 as [|[k' s'] d Hx Hd IH]; simpl; [by repeat constructor|].
  destruct (decide (k' = k)); constructor; done.
Qed.

Lemma add_project_sites_visible (rows : list (Row Value)) (d : list (Value * ProjectSite Value)) :
  Forall (fun it : Value * ProjectSite Value => visible it.2 = true) d ->
  Forall (fun it : Value * ProjectSite Value => visible it.2 = true) (foldl add_project_site d rows).
Proof.
  revert d. induction rows as [|row rows IH]; intros d Hd; simpl; [done|].
  apply IH. unfold add_project_site. by apply dict_set_visible.
Qed.

(** X8.  Filling an empty project store from a "Projects" sheet gives
    one site per distinct project name, in order of first appearance,
    all visible; when a name occurs on several rows the site keeps the
    place of the first and takes the coordinates of the last. *)
Theorem project_sites_from_sheet (projects_df : DataFrame Value) :
  map fst (populate_project_sites projects_df []) = unique (column "Project Name" projects_df)
  /\ Forall (fun it : Value * ProjectSite Value => visible it.2 = true)
            (populate_project_sites projects_df [])
  /\ forall pre row post,
       iterrows projects_df = pre ++ row :: post ->
       (forall later_row, later_row ∈ post ->
          later_row "Project Name" <> row "Project Name") ->
       dict_get (row "Project Name") (populate_project_sites projects_df [])
       = Some {| lat := row "Latitude"; lon := row "Longitude"; visible := true |}.
Proof.
  unfold populate_project_sites. split; [|split].
  - by rewrite add_project_sites_keys.
  - apply add_project_sites_visible. constructor.
  - intros pre row post -> Hlast. rewrite foldl_app. simpl.
    rewrite add_project_sites_frame by done.
    unfold add_project_site at 1. apply dict_get_set_eq.
Qed.

Lemma populate_NoDup (pdf : DataFrame Value) (sites : list (Value * ProjectSite Value)) :
  NoDup (map fst sites) -> NoDup (map fst (populate_project_sites pdf sites)).
Proof.
  intros Hnd. destruct sites as [|site sites]; [|done].
  unfold populate_project_sites. rewrite add_project_sites_keys. apply NoDup_unique.
Qed.

End Tables.

Section Events.

Context {Value Polygon Err : Type} `{Countable Value}.

Local Abbreviation event := (Event Value Polygon Err).

Lemma asks_more (c : Client) (seconds : Z) (ps ps' : list (Value * Value)) (e : event) :
  (forall p, p ∈ ps -> p ∈ ps') -> asks c seconds ps e -> asks c seconds ps' e.
Proof.
  intros Hsub. destruct e; simpl; try done.
  intros [-> (p & Hp & ->)]. split; [done|]. exists p. split; [by apply Hsub|done].
Qed.

Lemma drawn_loop_events (o : Overlay Value) (p : Polygon) :
  Forall (fun e : event => is_loop_event e = true) (drawn o p).
Proof. repeat constructor. Qed.

Lemma drawn_asks (c : Client) (seconds : Z) (ps : list (Value * Value)) (o : Overlay Value)
    (p : Polygon) :
  Forall (asks (Polygon := Polygon) (Err := Err) c seconds ps) (drawn o p).
Proof. repeat constructor. Qed.

Lemma answered_within (l1 l l2 : list event) (k : list (Arg Value)) (p : Polygon) :
  answered l k p -> answered (l1 ++ l ++ l2) k p.
Proof.
  intros (c & lo & la & seconds & -> & Hin). exists c, lo, la, seconds. split; [done|].
  rewrite !elem_of_app. tauto.
Qed.

Lemma not_loop_event (e : event) :
  is_loop_event e = false ->
  is_request e = false /\ is_success e = false /\ is_sleep e = false
  /\ is_layer e = false /\ is_marker e = false.
Proof. by destruct e. Qed.

Lemma loop_events_only (d : list event) :
  Forall (fun e => is_loop_event e = true) d ->
  count is_show d = 0 /\ count is_markdown d = 0 /\ count is_client d = 0.
Proof.
  induction 1 as [|e d He _ IH]; [done|]. simpl.
  destruct IH as (-> & -> & ->). by destruct e.
Qed.

Lemma filter_loop_free (f : event -> bool) (l1 l2 d : list event) :
  List.filter f l1 = [] -> List.filter f l2 = [] ->
  List.filter f (l1 ++ d ++ l2) = List.filter f d.
Proof. intros H1 H2. by rewrite !List.filter_app, H1, H2, app_nil_r. Qed.

End Events.

Section Trails.

Context {Value Polygon Err : Type} `{Countable Value}.
Variable isochrones :
  list (Event Value Polygon Err) -> Client -> IsoQuery Value -> Polygon + Err.

Local Abbreviation world := (World Value Polygon Err).
Local Abbreviation event := (Event Value Polygon Err).
Local Abbreviation tour_run := (tour_run isochrones).

(** What a tour adds, whatever its outcome: loop events only, requests
    for its own points with its own client, one cache entry per answered
    request, at most one request per overlay. *)
Lemma tour_run_trail c seconds os w rw :
  tour_run c seconds os w rw ->
  exists d, log rw.2 = log w ++ d
    /\ Forall (fun e => is_loop_event e = true) d
    /\ Forall (asks c seconds (map (fun o => (at_lon o, at_lat o)) os)) d
    /\ size (cache rw.2) = size (cache w) + count is_success d
    /\ count is_request d <= length os.
Proof.
  induction 1 as [w|o os w w1 rw Hstep _ IH|o os w e w1 Hstep].
  - exists []. simpl. rewrite app_nil_r. repeat split; (done || lia || constructor).
  - destruct IH as (d & Hd & Hev & Hask & Hsize & Hreq).
    assert (Forall (asks c seconds (map (fun o => (at_lon o, at_lat o)) (o :: os))) d) as Hask'.
    { eapply Forall_impl; [exact Hask|]. intros e. apply asks_more. intros p Hp. by right. }
    inversion Hstep as [p Hk Ew|p Hk Hr Ew|]; subst; simpl in *.
    + exists (drawn o p ++ d). rewrite Hd, <- app_assoc, !count_app.
      split; [done|]. split; [apply Forall_app; split; [apply drawn_loop_events|done]|].
      split; [apply Forall_app; split; [apply drawn_asks|done]|].
      simpl. split; lia.
    + exists ((Request c (iso_query (at_lon o) (at_lat o) seconds) (inl p) :: drawn o p) ++ d).
      rewrite Hd, <- app_assoc, !count_app.
      split; [done|].
      split; [apply Forall_app; split; [constructor; [done|apply drawn_loop_events]|done]|].
      split.
      { apply Forall_app; split; [|done]. constructor; [|apply drawn_asks].
        simpl. split; [done|]. exists (at_lon o, at_lat o). split; [by left|done]. }
      rewrite map_size_insert_None in Hsize by done. simpl. split; lia.
  - inversion Hstep as [| |e' Hk Hr Ew]; subst; simpl.
    exists [Request c (iso_query (at_lon o) (at_lat o) seconds) (inr e')].
    split; [done|]. split; [by repeat constructor|]. split.
    { constructor; [|constructor]. simpl. split; [done|].
      exists (at_lon o, at_lat o). split; [by left|done]. }
    simpl. split; lia.
Qed.

(** What a tour that reaches its end has drawn: one layer and one marker
    per overlay, in order, each layer with the polygon the cache now holds
    for the overlay's key. *)
Lemma tour_run_layers c seconds os w w' :
  tour_run c seconds os w (Ret tt, w') ->
  exists d, log w' = log w ++ d
    /\ Forall2 (fun (e : event) o =>
                  exists p, cache w' !! overlay_key seconds o = Some p
                            /\ e = GeoJson p (layer o) (layer_style o))
               (List.filter is_layer d) os
    /\ Forall2 (fun (e : event) o => e = Marker [at_lat o; at_lon o] (popup o) (pin o))
               (List.filter is_marker d) os.
Proof.
  intros Hrun. remember (Ret tt, w') as rw eqn:E. revert E.
  induction Hrun as [w|o os w w1 rw Hstep Hrest IH|o os w e w1 Hstep]; intros E.
  - injection E as <-. exists []. rewrite app_nil_r. repeat split; constructor.
  - destruct (IH E) as (d & Hd & Hlay & Hmark). clear IH. subst rw.
    apply tour_run_cache in Hrest. simpl in Hrest.
    inversion Hstep as [p Hk Ew|p Hk Hr Ew|]; subst; simpl in *.
    + exists (drawn o p ++ d). rewrite Hd, <- app_assoc. split; [done|].
      rewrite !List.filter_app. simpl. split; constructor; try done.
      exists p. split; [|done]. by eapply lookup_weaken.
    + exists ((Request c (iso_query (at_lon o) (at_lat o) seconds) (inl p) :: drawn o p) ++ d).
      rewrite Hd, <- app_assoc. split; [done|].
      rewrite !List.filter_app. simpl. split; constructor; try done.
      exists p. split; [|done]. eapply lookup_weaken; [|exact Hrest].
      apply lookup_insert_eq.
  - done.
Qed.

(** Whatever a tour leaves in the cache was there before or is the
    answer to one of its requests. *)
Lemma tour_run_sound c seconds os w rw :
  tour_run c seconds os w rw ->
  exists d, log rw.2 = log w ++ d
    /\ forall k p, cache rw.2 !! k = Some p -> cache w !! k = Some p \/ answered d k p.
Proof.
  induction 1 as [w|o os w w1 rw Hstep _ IH|o os w e w1 Hstep].
  - exists []. rewrite app_nil_r. split; [done|]. by left.
  - destruct IH as (d & Hd & Hsound).
    inversion Hstep as [p Hk Ew|p Hk Hr Ew|]; subst; simpl in *.
    + exists (drawn o p ++ d). rewrite Hd, <- app_assoc. split; [done|].
      intros k q Hq. destruct (Hsound k q Hq) as [?|Hans]; [by left|right].
      apply (answered_within (drawn o p) d []) in Hans. by rewrite app_nil_r in Hans.
    + exists ((Request c (iso_query (at_lon o) (at_lat o) seconds) (inl p) :: drawn o p) ++ d).
      rewrite Hd, <- app_assoc. split; [done|].
      intros k q Hq. destruct (Hsound k q Hq) as [Hold|Hans].
      * destruct (decide (overlay_key seconds o = k)) as [<-|Hne].
        -- rewrite lookup_insert_eq in Hold. injection Hold as <-. right.
           exists c, (at_lon o), (at_lat o), seconds. split; [done|]. by left.
        -- rewrite lookup_insert_ne in Hold by done. by left.
      * right.
        apply (answered_within
                 (Request c (iso_query (at_lon o) (at_lat o) seconds) (inl p) :: drawn o p) d [])
          in Hans.
        by rewrite app_nil_r in Hans.
  - inversion Hstep as [| |e' Hk Hr Ew]; subst; simpl.
    exists [Request c (iso_query (at_lon o) (at_lat o) seconds) (inr e')].
    split; [done|]. by left.
Qed.

(** A tour sleeps between its requests. *)
Lemma tour_run_paced c seconds os w rw :
  tour_run c seconds os w rw ->
  exists d, log rw.2 = log w ++ d
    /\ paced true d = true
    /\ (rw.1 = Ret tt -> forall l, paced true (d ++ l) = paced true l).
Proof.
  induction 1 as [w|o os w w1 rw Hstep _ IH|o os w e w1 Hstep].
  - exists []. rewrite app_nil_r. done.
  - destruct IH as (d & Hd & Hp & Hret).
    inversion Hstep as [p Hk Ew|p Hk Hr Ew|]; subst; simpl in *.
    + exists (drawn o p ++ d). rewrite Hd, <- app_assoc. split; [done|]. split; [done|].
      intros Hdone l. rewrite <- app_assoc. simpl. by apply Hret.
    + exists ((Request c (iso_query (at_lon o) (at_lat o) seconds) (inl p) :: drawn o p) ++ d).
      rewrite Hd, <- app_assoc. split; [done|]. split; [done|].
      intros Hdone l. rewrite <- app_assoc. simpl. by apply Hret.
  - inversion Hstep as [| |e' Hk Hr Ew]; subst; simpl.
    exists [Request c (iso_query (at_lon o) (at_lat o) seconds) (inr e')]. done.
Qed.

End Trails.

Section Further.

Context {Value Polygon Err : Type} `{Countable Value}.
Variable isochrones :
  list (Event Value Polygon Err) -> Client -> IsoQuery Value -> Polygon + Err.
Variable mean : list Value -> Value.
Variable str : Value -> string.

Local Abbreviation world := (World Value Polygon Err).
Local Abbreviation event := (Event Value Polygon Err).
Local Abbreviation tour c seconds os := (for_each os (overlay isochrones c seconds)).
Local Abbreviation tour_run := (tour_run isochrones).
Local Abbreviation script := (script isochrones mean str).
Local Abbreviation run := (run isochrones mean str).
Local Abbreviation interact := (interact isochrones mean str).
Local Abbreviation pass := (pass isochrones mean str).
Local Abbreviation later := (later isochrones mean str).
Local Abbreviation stage := (stage mean str).

Lemma tour_run_goes_on c seconds os (w w' : world) :
  ~ tour_run c seconds os w (Stopped, w').
Proof.
  intros Hrun. remember (Stopped, w') as rw eqn:E.
  induction Hrun as [w|o os w w1 rw Hstep _ IH|o os w e w1 Hstep]; [done|by apply IH|done].
Qed.

(** A run that gets to the loops: the tour it makes, and what the run
    is in terms of it. *)
Lemma pass_render (inp : Inputs Value) (w : world) (up : Upload Value) (cdf pdf : DataFrame Value) :
  truthy (api_key (with_key inp (session w))) = true ->
  uploaded_file inp = Some up ->
  load up = inr (cdf, pdf) ->
  exists r w1 d,
    tour_run {| key := api_key (with_key inp (session w)) |} (manual_minutes inp * 60)
      (overlays str (manual_minutes inp) cdf (session (run inp w))) (stage inp cdf pdf w) (r, w1)
    /\ log w1 = log (stage inp cdf pdf w) ++ d
    /\ (script inp w).1 = r
    /\ cache (run inp w) = cache w1
    /\ ((r = Ret tt
         /\ pass inp w
            = ClientCreated (api_key (with_key inp (session w))) :: map_created mean cdf
              :: d ++ shown_at_last str cdf)
        \/ (exists e, r = Raised e
            /\ pass inp w
               = ClientCreated (api_key (with_key inp (session w))) :: map_created mean cdf :: d)).
Proof.
  intros Hkey Hup Hload.
  rewrite <- (stage_session isochrones mean str inp cdf pdf w up) by done.
  unfold pass, run. rewrite (script_render isochrones mean str inp w up cdf pdf) by done.
  pose proof (tour_runs isochrones {| key := api_key (with_key inp (session w)) |}
    (manual_minutes inp * 60)
    (overlays str (manual_minutes inp) cdf (session (stage inp cdf pdf w)))
    (stage inp cdf pdf w)) as Hrun.
  destruct (tour {| key := api_key (with_key inp (session w)) |}
    (manual_minutes inp * 60)
    (overlays str (manual_minutes inp) cdf (session (stage inp cdf pdf w)))
    (stage inp cdf pdf w)) as [r w1].
  destruct (tour_run_trail isochrones _ _ _ _ _ Hrun) as (d & Hd & _).
  simpl in Hd. exists r, w1, d. split; [exact Hrun|]. split; [exact Hd|].
  destruct r as [[]| |e]; simpl.
  - split; [done|]. split; [done|]. left. split; [done|].
    rewrite Hd, <- !app_assoc, drop_app_length. done.
  - by apply tour_run_goes_on in Hrun.
  - split; [done|]. split; [done|]. right. exists e. split; [done|].
    rewrite Hd, <- !app_assoc, drop_app_length. done.
Qed.

Lemma run_log_pass (inp : Inputs Value) (w : world) :
  log (run inp w) = log w ++ pass inp w.
Proof.
  destruct (run_log isochrones mean str inp w) as (d & Hd & _).
  by rewrite (pass_log isochrones mean str inp w d Hd).
Qed.

(** A run that stops: where it stops and what it leaves. *)
Lemma script_stopped (inp : Inputs Value) (w : world) :
  (script inp w).1 = Stopped ->
  exists e, is_loop_event e = false /\ is_render e = false /\ is_client e = false
    /\ ((truthy (api_key (with_key inp (session w))) = false
         /\ run inp w = {| session := with_key inp (session w); cache := cache w;
                           log := log w ++ [e] |})
        \/ (truthy (api_key (with_key inp (session w))) = true
            /\ run inp w
               = {| session := with_key inp (session w); cache := cache w;
                    log := log w ++ [ClientCreated (api_key (with_key inp (session w))); e] |})).
Proof.
  unfold run. rewrite script_unfold. simpl.
  destruct (truthy (api_key (with_key inp (session w)))) eqn:Hkey.
  - destruct (uploaded_file inp) as [up|] eqn:Hup.
    + destruct (load up) as [msg|[cdf pdf]] eqn:Hload.
      * intros _. exists (Error (load_error msg)). repeat split; try done.
        right. split; [done|]. unfold set_log. simpl. by rewrite <- app_assoc.
      * intros Hstop. exfalso.
        destruct (pass_render inp w up cdf pdf Hkey Hup Hload)
          as (r & w1 & d & Hrun & _ & Hr & _).
        rewrite (script_unfold isochrones mean str) in Hr. simpl in Hr.
        rewrite Hkey, Hup, Hload in Hr. rewrite Hr in Hstop. subst r.
        by apply tour_run_goes_on in Hrun.
    + intros _. exists (Info upload_info). repeat split; try done.
      right. split; [done|]. unfold set_log. simpl. by rewrite <- app_assoc.
  - intros _. exists (Warning api_key_warning). repeat split; try done. by left.
Qed.

(** *** Small facts about sessions *)

Lemma with_key_all_competitors (inp : Inputs Value) (s : Session Value) :
  all_competitors (with_key inp s) = all_competitors s.
Proof. unfold with_key. by destruct (truthy (api_key_input inp)). Qed.

Lemma run_api_key (inp : Inputs Value) (w : world) :
  api_key (session (run inp w)) = api_key (with_key inp (session w)).
Proof.
  rewrite run_session. unfold next_session. simpl.
  destruct (truthy (api_key (with_key inp (session w)))); [|done].
  destruct (uploaded_file inp) as [up|]; [|done].
  destruct (load up) as [e|[cdf pdf]]; [done|]. apply ready_api_key.
Qed.

Lemma with_key_empty (inp : Inputs Value) (s : Session Value) :
  api_key_input inp = "" -> with_key inp s = s.
Proof. intros Hin. unfold with_key. by rewrite Hin. Qed.

Lemma with_key_typed (inp : Inputs Value) (s : Session Value) :
  truthy (api_key_input inp) = true -> api_key (with_key inp s) = api_key_input inp.
Proof. intros Hin. unfold with_key. by rewrite Hin. Qed.

(** With a key, the first thing a run does is construct the client. *)
Lemma pass_head (inp : Inputs Value) (w : world) :
  truthy (api_key (with_key inp (session w))) = true ->
  exists d, pass inp w = ClientCreated (api_key (with_key inp (session w))) :: d.
Proof.
  intros Hkey. destruct ((script inp w).1) as [[]| |e] eqn:Hout.
  - destruct (script_goes_on isochrones mean str inp w) as (up & cdf & pdf & _ & Hup & Hload);
      [by rewrite Hout|].
    destruct (pass_render inp w up cdf pdf Hkey Hup Hload)
      as (r & w1 & d & _ & _ & _ & _ & [[_ ->]|(e & _ & ->)]); eauto.
  - destruct (script_stopped inp w Hout) as (e & _ & _ & _ & [[Hno _]|[_ Hrun]]); [congruence|].
    unfold pass. rewrite Hrun. simpl. rewrite drop_app_length. eauto.
  - destruct (script_goes_on isochrones mean str inp w) as (up & cdf & pdf & _ & Hup & Hload);
      [by rewrite Hout|].
    destruct (pass_render inp w up cdf pdf Hkey Hup Hload)
      as (r & w1 & d & _ & _ & _ & _ & [[_ ->]|(e' & _ & ->)]); eauto.
Qed.

Lemma interact_snoc (inps : list (Inputs Value)) (inp : Inputs Value) (w : world) :
  interact (inps ++ [inp]) w = run inp (interact inps w).
Proof. unfold interact. by rewrite foldl_app. Qed.

(** X1.  A key, once in the session, is never lost: after any further
    interactions the session still holds a key.  While the key box is
    left empty the stored key stays the same, and the next run constructs
    its client from it; a key typed into the box replaces the stored one. *)
Theorem stored_key_survives (w : world) :
  truthy (api_key (session w)) = true ->
  (forall inps, truthy (api_key (session (interact inps w))) = true)
  /\ (forall inps inp,
        Forall (fun i => api_key_input i = "") inps ->
        api_key_input inp = "" ->
        api_key (session (interact inps w)) = api_key (session w)
        /\ exists d, pass inp (interact inps w) = ClientCreated (api_key (session w)) :: d)
  /\ (forall inps inp,
        truthy (api_key_input inp) = true ->
        api_key (session (run inp (interact inps w))) = api_key_input inp).
Proof.
  intros Hkey.
  assert (forall inps, truthy (api_key (session (interact inps w))) = true) as Hkept.
  { induction inps as [|inp inps IH] using rev_ind; [done|].
    rewrite interact_snoc, run_api_key. unfold with_key.
    by destruct (truthy (api_key_input inp)) eqn:Hin. }
  assert (forall inps, Forall (fun i : Inputs Value => api_key_input i = "") inps ->
            api_key (session (interact inps w)) = api_key (session w)) as Hsame.
  { induction inps as [|inp inps IH] using rev_ind; [done|].
    intros [Hinps Hinp%Forall_inv]%Forall_app.
    rewrite interact_snoc, run_api_key, with_key_empty by done. by apply IH. }
  split; [exact Hkept|]. split.
  - intros inps inp Hinps Hinp. split; [by apply Hsame|].
    destruct (pass_head inp (interact inps w)) as [d Hd].
    { rewrite with_key_empty by done. apply Hkept. }
    exists d. rewrite Hd, with_key_empty by done. by rewrite Hsame.
  - intros inps inp Hinp. rewrite run_api_key. by apply with_key_typed.
Qed.

(** X2.  A run that stops (no key, no upload, or a workbook the loader
    refuses) commits nothing but the key: the cache, the project store
    and the competitor records are as before, and the run has sent no
    request, drawn nothing and not slept. *)
Theorem stopped_run_commits_nothing (inp : Inputs Value) (w : world) :
  (script inp w).1 = Stopped ->
  cache (run inp w) = cache w
  /\ project_sites (session (run inp w)) = project_sites (session w)
  /\ competitor_visibility (session (run inp w)) = competitor_visibility (session w)
  /\ all_competitors (session (run inp w)) = all_competitors (session w)
  /\ count is_request (pass inp w) = 0
  /\ count is_render (pass inp w) = 0
  /\ count is_sleep (pass inp w) = 0.
Proof.
  intros Hstop.
  destruct (script_stopped inp w Hstop) as (e & Hloop & Hrender & _ & [[_ Hrun]|[_ Hrun]]);
    destruct (not_loop_event e Hloop) as (Hreq & _ & Hsleep & _);
    unfold pass; rewrite Hrun; simpl; rewrite drop_app_length; simpl;
    rewrite with_key_project_sites, with_key_visibility, with_key_all_competitors,
      Hreq, Hrender, Hsleep; done.
Qed.

(** X4.  The loader's error names the first required column that is
    missing, in the order in which the script checks them: the "Companies"
    columns Company Location, Latitude, Longitude, Company Name, and,
    only when those are all there, the "Projects" columns Project Name,
    Latitude, Longitude. *)
Theorem first_missing_column_is_named (inp : Inputs Value) (w : world)
    (cdf pdf : DataFrame Value) (pre post : list string) (col msg : string) :
  truthy (api_key (with_key inp (session w))) = true ->
  uploaded_file inp = Some (Workbook cdf pdf) ->
  (required_companies = pre ++ col :: post
   /\ (forall c, c ∈ pre -> c ∈ columns cdf)
   /\ (col ∉ columns cdf)
   /\ msg = "'Companies' sheet must include '" +:+ col +:+ "' column.")
  \/ ((forall c, c ∈ required_companies -> c ∈ columns cdf)
      /\ required_projects = pre ++ col :: post
      /\ (forall c, c ∈ pre -> c ∈ columns pdf)
      /\ (col ∉ columns pdf)
      /\ msg = "'Projects' sheet must include '" +:+ col +:+ "' column.") ->
  script inp w
  = (Stopped,
     {| session := with_key inp (session w);
        cache := cache w;
        log := log w ++ [ClientCreated (api_key (with_key inp (session w)));
                         Error ("❌ Error loading data: " +:+ msg)] |}).
Proof.
  intros Hkey Hup Hmiss.
  assert (load (Workbook cdf pdf) = inl msg) as Hload.
  { unfold load. destruct Hmiss as [(-> & Hpre & Hcol & ->)|(Hall & -> & Hpre & Hcol & ->)].
    - by rewrite (assert_columns_first companies_msg pre post col cdf Hpre Hcol).
    - apply (assert_columns_none companies_msg) in Hall. rewrite Hall.
      by rewrite (assert_columns_first projects_msg pre post col pdf Hpre Hcol). }
  rewrite script_unfold. simpl. rewrite Hkey, Hup, Hload.
  unfold set_log. simpl. by rewrite <- app_assoc.
Qed.

(** *** What the overlays of a run are made of *)

Lemma overlays_points (minutes : Z) (cdf : DataFrame Value) (s : Session Value)
    (p : Value * Value) :
  p ∈ map (fun o => (at_lon o, at_lat o)) (overlays str minutes cdf s) -> p ∈ points cdf s.
Proof.
  unfold overlays, points, project_overlays, company_overlays.
  rewrite !map_app, !map_map, !elem_of_app. simpl.
  intros [Hp|Hp]; [by left|right].
  apply list_elem_of_fmap in Hp as (row & -> & Hrow).
  apply list_elem_of_fmap. exists row. split; [done|].
  apply list_elem_of_In. apply list_elem_of_In, List.filter_In in Hrow as [Hrow _]. done.
Qed.

Lemma overlays_length (minutes : Z) (cdf : DataFrame Value) (s : Session Value) :
  length (overlays str minutes cdf s)
  <= length (List.filter shown (project_sites s)) + length (iterrows cdf).
Proof.
  unfold overlays, project_overlays, company_overlays.
  rewrite length_app, !length_map.
  pose proof (List.filter_length_le (row_visible s) (iterrows cdf)). lia.
Qed.

(** X5.  Every request a run sends goes out with the client made from
    the session's key and asks for the driving-time isochrone of one
    location, a visible project site or a company row, longitude first,
    for the chosen number of minutes times sixty seconds. *)
Theorem requests_ask_for_drawn_points (inp : Inputs Value) (w : world) (up : Upload Value)
    (cdf pdf : DataFrame Value) :
  uploaded_file inp = Some up ->
  load up = inr (cdf, pdf) ->
  Forall (fun e =>
            match e with
            | Request c q _ =>
                c = {| key := api_key (session (run inp w)) |}
                /\ exists lo la,
                     (lo, la) ∈ points cdf (session (run inp w))
                     /\ q = {| locations := [[lo; la]]; profile := "driving-car";
                               range_type := "time";
                               intervals := [(manual_minutes inp * 60)%Z] |}
            | _ => True
            end) (pass inp w).
Proof.
  intros Hup Hload.
  destruct (truthy (api_key (with_key inp (session w)))) eqn:Hkey.
  - destruct (pass_render inp w up cdf pdf Hkey Hup Hload)
      as (r & w1 & d & Hrun & Hd & _ & _ & Hpass).
    destruct (tour_run_trail isochrones _ _ _ _ _ Hrun) as (d' & Hd' & _ & Hask & _).
    simpl in Hd'. rewrite Hd in Hd'. apply app_inv_head in Hd'. subst d'.
    assert (Forall (fun e : event =>
              match e with
              | Request c q _ =>
                  c = {| key := api_key (session (run inp w)) |}
                  /\ exists lo la,
                       (lo, la) ∈ points cdf (session (run inp w))
                       /\ q = {| locations := [[lo; la]]; profile := "driving-car";
                                 range_type := "time";
                                 intervals := [(manual_minutes inp * 60)%Z] |}
              | _ => True
              end) d) as Hd_ok.
    { eapply Forall_impl; [exact Hask|]. intros e He. destruct e; try done.
      destruct He as [-> ([lo la] & Hp & ->)]. rewrite run_api_key. split; [done|].
      exists lo, la. split; [|done]. by eapply overlays_points. }
    destruct Hpass as [[_ ->]|(e & _ & ->)].
    + repeat constructor. apply Forall_app. split; [done|]. by repeat constructor.
    + by repeat constructor.
  - assert ((script inp w).1 = Stopped) as Hstop.
    { rewrite script_unfold. simpl. by rewrite Hkey. }
    destruct (script_stopped inp w Hstop) as (e & Hloop & _ & _ & [[_ Hrun]|[Hyes _]]);
      [|congruence].
    unfold pass. rewrite Hrun. simpl. rewrite drop_app_length.
    constructor; [by destruct e|constructor].
Qed.

(** X6.  A run that reaches its end has put on the map exactly one
    layer and one marker per entry, in the order of the entries: the
    visible project sites in the order of the store (red, named after the
    site and the minutes, star marker), then the company rows in sheet
    order (in the colour of the row's group, info marker).  Each layer
    carries the polygon that the cache holds for the entry's
    (longitude, latitude, seconds) once the run is over. *)
Theorem layers_follow_the_entries (inp : Inputs Value) (w : world) (up : Upload Value)
    (cdf pdf : DataFrame Value) :
  uploaded_file inp = Some up ->
  load up = inr (cdf, pdf) ->
  (script inp w).1 = Ret tt ->
  Forall2 (fun (e : event) o =>
             exists p, cache (run inp w) !! [AValue (at_lon o); AValue (at_lat o);
                                            AInt (manual_minutes inp * 60)] = Some p
                       /\ e = GeoJson p (layer o) (layer_style o))
          (List.filter is_layer (pass inp w))
          (overlays str (manual_minutes inp) cdf (session (run inp w)))
  /\ Forall2 (fun (e : event) o => e = Marker [at_lat o; at_lon o] (popup o) (pin o))
          (List.filter is_marker (pass inp w))
          (overlays str (manual_minutes inp) cdf (session (run inp w))).
Proof.
  intros Hup Hload Hdone.
  destruct (script_goes_on isochrones mean str inp w) as (up' & cdf' & pdf' & Hkey & _);
    [by rewrite Hdone|].
  destruct (pass_render inp w up cdf pdf Hkey Hup Hload)
    as (r & w1 & d & Hrun & Hd & Hr & Hcache & Hpass).
  rewrite Hdone in Hr. subst r.
  destruct Hpass as [[_ ->]|(e & [=] & _)].
  destruct (tour_run_layers isochrones _ _ _ _ _ Hrun) as (d' & Hd' & Hlay & Hmark).
  rewrite Hd in Hd'. apply app_inv_head in Hd'. subst d'.
  rewrite Hcache.
  change (ClientCreated (api_key (with_key inp (session w))) :: map_created mean cdf
          :: d ++ shown_at_last str cdf)
    with ([ClientCreated (api_key (with_key inp (session w))); map_created mean cdf]
          ++ d ++ shown_at_last str cdf).
  rewrite !filter_loop_free by done. done.
Qed.

(** *** Invariants of the session *)

Lemma tick_names (inp : Inputs Value) (sites : list (Value * ProjectSite Value)) :
  map fst (map (tick str inp) sites) = map fst sites.
Proof. rewrite map_map. apply map_ext. by intros [pname pdata]. Qed.

Lemma next_session_names (inp : Inputs Value) (s : Session Value) :
  NoDup (map fst (project_sites s)) ->
  NoDup (map fst (project_sites (next_session str inp s))).
Proof.
  intros Hnd. unfold next_session. simpl.
  destruct (truthy (api_key (with_key inp s))); [|by rewrite with_key_project_sites].
  destruct (uploaded_file inp) as [up|]; [|by rewrite with_key_project_sites].
  destruct (load up) as [e|[cdf pdf]]; [by rewrite with_key_project_sites|].
  rewrite ready_project_sites, tick_names, with_key_project_sites.
  by apply populate_NoDup.
Qed.

(** X9.  The project store never holds two sites under one name:
    whatever workbooks are uploaded and whatever boxes are ticked, the
    names in the store stay pairwise distinct, so each check box label
    stands for one site. *)
Theorem project_names_stay_distinct (inps : list (Inputs Value)) (w : world) :
  NoDup (map fst (project_sites (session w))) ->
  NoDup (map fst (project_sites (session (interact inps w)))).
Proof.
  intros Hnd. induction inps as [|inp inps IH] using rev_ind; [done|].
  rewrite interact_snoc, run_session. by apply next_session_names.
Qed.

Lemma add_competitor_registry (s : Session Value) (row : Row Value) :
  dom (competitor_visibility s) = all_competitors s ->
  dom (competitor_visibility (add_competitor s row)) = all_competitors (add_competitor s row).
Proof.
  intros Hdom. unfold add_competitor, setdefault. simpl.
  destruct (competitor_visibility s !! row "Company Location") as [b|] eqn:Hk.
  - apply (elem_of_dom_2 (D := gset Value)) in Hk. set_solver.
  - rewrite dom_insert_L. set_solver.
Qed.

Lemma competitors_registry (rows : list (Row Value)) (s : Session Value) :
  dom (competitor_visibility s) = all_competitors s ->
  dom (competitor_visibility (foldl add_competitor s rows))
  = all_competitors (foldl add_competitor s rows).
Proof.
  revert s. induction rows as [|row rows IH]; intros s Hs; simpl; [done|].
  by apply IH, add_competitor_registry.
Qed.

Lemma competitors_recorded (rows : list (Row Value)) (s : Session Value) (row : Row Value) :
  row ∈ rows -> row "Company Location" ∈ all_competitors (foldl add_competitor s rows).
Proof.
  assert (forall rs (s0 : Session Value) k, k ∈ all_competitors s0 ->
            k ∈ all_competitors (foldl add_competitor s0 rs)) as Hmono.
  { induction rs as [|r rs IH]; intros s0 k Hk; simpl; [done|].
    apply IH. simpl. set_solver. }
  revert s. induction rows as [|r rows IH]; intros s Hrow; [by apply elem_of_nil in Hrow|].
  simpl. apply elem_of_cons in Hrow as [->|Hrow]; [|by apply IH].
  apply Hmono. simpl. set_solver.
Qed.

Lemma next_session_registry (inp : Inputs Value) (s : Session Value) :
  dom (competitor_visibility s) = all_competitors s ->
  dom (competitor_visibility (next_session str inp s)) = all_competitors (next_session str inp s).
Proof.
  intros Hdom.
  assert (dom (competitor_visibility (with_key inp s)) = all_competitors (with_key inp s)) as Hk
    by (by rewrite with_key_visibility, with_key_all_competitors).
  unfold next_session. simpl.
  destruct (truthy (api_key (with_key inp s))); [|done].
  destruct (uploaded_file inp) as [up|]; [|done].
  destruct (load up) as [e|[cdf pdf]]; [done|].
  unfold ready. simpl.
  apply (competitors_registry (iterrows cdf)
           (set_project_sites (populate_project_sites pdf (project_sites (with_key inp s)))
              (with_key inp s))).
  exact Hk.
Qed.

Lemma next_session_keeps (inp : Inputs Value) (s : Session Value) (k : Value) (b : bool) :
  competitor_visibility s !! k = Some b ->
  competitor_visibility (next_session str inp s) !! k = Some b.
Proof.
  intros Hk. unfold next_session. simpl.
  destruct (truthy (api_key (with_key inp s))); [|by rewrite with_key_visibility].
  destruct (uploaded_file inp) as [up|]; [|by rewrite with_key_visibility].
  destruct (load up) as [e|[cdf pdf]]; [by rewrite with_key_visibility|].
  rewrite ready_keeps; rewrite with_key_visibility; [done|by rewrite Hk].
Qed.

(** X10.  The competitor records only grow.  An entry, once made, keeps
    its value through every later run, also when later workbooks no
    longer list that company; the set of known competitors is at all
    times the set of names that have an entry; and after a run that
    loads a workbook every company location of that workbook is known. *)
Theorem competitor_records_only_grow (inps : list (Inputs Value)) (w : world) :
  dom (competitor_visibility (session w)) = all_competitors (session w) ->
  dom (competitor_visibility (session (interact inps w)))
    = all_competitors (session (interact inps w))
  /\ (forall cname b,
        competitor_visibility (session w) !! cname = Some b ->
        competitor_visibility (session (interact inps w)) !! cname = Some b)
  /\ (forall inp up cdf pdf row,
        truthy (api_key (with_key inp (session (interact inps w)))) = true ->
        uploaded_file inp = Some up ->
        load up = inr (cdf, pdf) ->
        row ∈ iterrows cdf ->
        row "Company Location" ∈ all_competitors (session (run inp (interact inps w)))).
Proof.
  intros Hdom. split; [|split].
  - induction inps as [|inp inps IH] using rev_ind; [done|].
    rewrite interact_snoc, run_session. by apply next_session_registry.
  - intros cname b. induction inps as [|inp inps IH] using rev_ind; [done|].
    intros Hk. rewrite interact_snoc, run_session. by apply next_session_keeps, IH.
  - intros inp up cdf pdf row Hkey Hup Hload Hrow.
    rewrite (run_session_ready isochrones mean str inp cdf pdf _ up) by done.
    unfold ready. simpl. by apply competitors_recorded.
Qed.

(** X11.  The map and the legend are shown exactly when a run reaches
    its end, and then as its last two acts: such a run constructs the
    client, creates the map centred on the mean latitude and longitude of
    the company rows at zoom 10, runs the two loops, shows the map and
    writes the legend of the colour table.  A run that stops or raises
    shows neither map nor legend. *)
Theorem map_shown_only_at_the_end (inp : Inputs Value) (w : world) :
  ((script inp w).1 = Ret tt ->
   exists up cdf pdf body,
     uploaded_file inp = Some up
     /\ load up = inr (cdf, pdf)
     /\ pass inp w
        = ClientCreated (api_key (session (run inp w)))
          :: MapCreated [mean (column "Latitude" cdf); mean (column "Longitude" cdf)] 10
          :: body ++ [ShowMap; Markdown (legend_html str (company_colors cdf))]
     /\ Forall (fun e => is_loop_event e = true) body)
  /\ ((script inp w).1 <> Ret tt ->
      count is_show (pass inp w) = 0 /\ count is_markdown (pass inp w) = 0).
Proof.
  split.
  - intros Hdone.
    destruct (script_goes_on isochrones mean str inp w) as (up & cdf & pdf & Hkey & Hup & Hload);
      [by rewrite Hdone|].
    destruct (pass_render inp w up cdf pdf Hkey Hup Hload)
      as (r & w1 & d & Hrun & Hd & Hr & _ & Hpass).
    rewrite Hdone in Hr. subst r. destruct Hpass as [[_ Hpass]|(e & [=] & _)].
    destruct (tour_run_trail isochrones _ _ _ _ _ Hrun) as (d' & Hd' & Hloop & _).
    simpl in Hd'. rewrite Hd in Hd'. apply app_inv_head in Hd'. subst d'.
    exists up, cdf, pdf, d. rewrite run_api_key. done.
  - intros Hnot. destruct ((script inp w).1) as [[]| |e] eqn:Hout; [done| |].
    + destruct (script_stopped inp w Hout) as (e & _ & Hrender & _ & [[_ Hrun]|[_ Hrun]]);
        unfold pass; rewrite Hrun; simpl; rewrite drop_app_length; by destruct e.
    + destruct (script_goes_on isochrones mean str inp w)
        as (up & cdf & pdf & Hkey & Hup & Hload); [by rewrite Hout|].
      destruct (pass_render inp w up cdf pdf Hkey Hup Hload)
        as (r & w1 & d & Hrun & Hd & Hr & _ & Hpass).
      rewrite Hout in Hr. subst r. destruct Hpass as [[[=] _]|(e' & _ & ->)].
      destruct (tour_run_trail isochrones _ _ _ _ _ Hrun) as (d' & Hd' & Hloop & _).
      simpl in Hd'. rewrite Hd in Hd'. apply app_inv_head in Hd'. subst d'.
      destruct (loop_events_only d Hloop) as (Hs & Hm & _). simpl. by rewrite Hs, Hm.
Qed.

(** What a run does to the size of the cache. *)
Lemma run_cache_size (inp : Inputs Value) (w : world) :
  size (cache (run inp w)) = size (cache w) + count is_success (pass inp w).
Proof.
  destruct ((script inp w).1) as [[]| |e] eqn:Hout.
  1,3: destruct (script_goes_on isochrones mean str inp w)
         as (up & cdf & pdf & Hkey & Hup & Hload); [by rewrite Hout|];
       destruct (pass_render inp w up cdf pdf Hkey Hup Hload)
         as (r & w1 & d & Hrun & Hd & _ & -> & Hpass);
       destruct (tour_run_trail isochrones _ _ _ _ _ Hrun) as (d' & Hd' & _ & _ & Hsize & _);
       simpl in Hd', Hsize; rewrite Hd in Hd'; apply app_inv_head in Hd'; subst d';
       destruct Hpass as [[_ ->]|(e' & _ & ->)]; simpl; rewrite ?count_app; simpl; lia.
  destruct (script_stopped inp w Hout) as (e & Hloop & _ & _ & [[_ Hrun]|[_ Hrun]]);
    destruct (not_loop_event e Hloop) as (_ & Hok & _);
    unfold pass; rewrite Hrun; simpl; rewrite drop_app_length; simpl; rewrite Hok; lia.
Qed.

(** X12.  The cache holds exactly one polygon per request that was
    answered: every run enlarges it by the number of its successful
    requests, and in a process that started with an empty cache the
    number of cached polygons is at all times the number of successful
    requests in its trace.  No request is ever spent on a polygon the
    cache already has. *)
Theorem one_entry_per_answered_request :
  (forall inp (w : world),
     size (cache (run inp w)) = size (cache w) + count is_success (pass inp w))
  /\ (forall w0 w : world,
        size (cache w0) = count is_success (log w0) ->
        later w0 w ->
        size (cache w) = count is_success (log w)).
Proof.
  split; [apply run_cache_size|].
  intros w0 w Hstart Hlater. induction Hlater as [|w' s inp _ IH]; [done|].
  rewrite run_cache_size, run_log_pass, count_app. simpl. lia.
Qed.

(** X13.  No run sends more requests than it has entries to draw: at
    most one per visible project site plus one per company row, whatever
    the cache holds and whether or not the run reaches its end. *)
Theorem at_most_one_request_per_entry (inp : Inputs Value) (w : world) (up : Upload Value)
    (cdf pdf : DataFrame Value) :
  uploaded_file inp = Some up ->
  load up = inr (cdf, pdf) ->
  count is_request (pass inp w)
  <= length (List.filter shown (project_sites (session (run inp w)))) + length (iterrows cdf).
Proof.
  intros Hup Hload.
  destruct (truthy (api_key (with_key inp (session w)))) eqn:Hkey.
  - destruct (pass_render inp w up cdf pdf Hkey Hup Hload)
      as (r & w1 & d & Hrun & Hd & _ & _ & Hpass).
    destruct (tour_run_trail isochrones _ _ _ _ _ Hrun) as (d' & Hd' & _ & _ & _ & Hreq).
    simpl in Hd'. rewrite Hd in Hd'. apply app_inv_head in Hd'. subst d'.
    pose proof (overlays_length (manual_minutes inp) cdf (session (run inp w))) as Hlen.
    destruct Hpass as [[_ ->]|(e & _ & ->)]; simpl; rewrite ?count_app; simpl; lia.
  - assert ((script inp w).1 = Stopped) as Hstop.
    { rewrite script_unfold. simpl. by rewrite Hkey. }
    destruct (script_stopped inp w Hstop) as (e & Hloop & _ & _ & [[_ Hrun]|[Hyes _]]);
      [|congruence].
    destruct (not_loop_event e Hloop) as (Hreq & _).
    unfold pass. rewrite Hrun. simpl. rewrite drop_app_length. simpl. rewrite Hreq. lia.
Qed.

(** A run that does not stop, as a tour between two fixed ends. *)
Lemma pass_around_tour (inp : Inputs Value) (w : world) :
  (script inp w).1 <> Stopped ->
  exists c seconds os w0 r w1 d ends,
    tour_run c seconds os w0 (r, w1)
    /\ cache w0 = cache w
    /\ log w1 = log w0 ++ d
    /\ cache (run inp w) = cache w1
    /\ pass inp w = [ClientCreated (api_key (with_key inp (session w)));
                     MapCreated ends.1 10] ++ d ++ ends.2.
Proof.
  intros Hgo.
  destruct (script_goes_on isochrones mean str inp w Hgo) as (up & cdf & pdf & Hkey & Hup & Hload).
  destruct (pass_render inp w up cdf pdf Hkey Hup Hload)
    as (r & w1 & d & Hrun & Hd & _ & Hcache & Hpass).
  destruct Hpass as [[_ Hpass]|(e' & _ & Hpass)].
  - exists {| key := api_key (with_key inp (session w)) |}, (manual_minutes inp * 60)%Z,
      (overlays str (manual_minutes inp) cdf (session (run inp w))), (stage inp cdf pdf w),
      r, w1, d,
      ([mean (column "Latitude" cdf); mean (column "Longitude" cdf)], shown_at_last str cdf).
    by rewrite Hpass.
  - exists {| key := api_key (with_key inp (session w)) |}, (manual_minutes inp * 60)%Z,
      (overlays str (manual_minutes inp) cdf (session (run inp w))), (stage inp cdf pdf w),
      r, w1, d, ([mean (column "Latitude" cdf); mean (column "Longitude" cdf)], []).
    rewrite Hpass. simpl. by rewrite app_nil_r.
Qed.

Lemma run_sound (inp : Inputs Value) (w : world) (k : list (Arg Value)) (p : Polygon) :
  cache (run inp w) !! k = Some p ->
  cache w !! k = Some p \/ answered (pass inp w) k p.
Proof.
  assert ((script inp w).1 = Stopped \/ (script inp w).1 <> Stopped) as [Hout|Hgo]
    by (destruct ((script inp w).1); [right|left|right]; done).
  - destruct (script_stopped inp w Hout) as (e & _ & _ & _ & [[_ Hrun]|[_ Hrun]]);
      rewrite Hrun; simpl; by left.
  - destruct (pass_around_tour inp w Hgo)
      as (c & seconds & os & w0 & r & w1 & d & ends & Hrun & Hw0 & Hd & -> & ->).
    destruct (tour_run_sound isochrones _ _ _ _ _ Hrun) as (d' & Hd' & Hsound).
    simpl in Hd', Hsound. rewrite Hd in Hd'. apply app_inv_head in Hd'. subst d'.
    intros Hk. destruct (Hsound k p Hk) as [Hold|Hans]; [left; by rewrite <- Hw0|right].
    by apply answered_within.
Qed.

(** X14.  The cache only ever holds what the provider said: in a
    process that started with an empty cache, every cached polygon, at
    any later time, is the answer recorded in the trace to a request for
    exactly the key's longitude, latitude and duration. *)
Theorem cached_polygons_were_answered (w0 w : world) :
  (forall k p, cache w0 !! k = Some p -> answered (log w0) k p) ->
  later w0 w ->
  forall k p, cache w !! k = Some p -> answered (log w) k p.
Proof.
  intros Hstart Hlater. induction Hlater as [|w' s inp _ IH]; [done|].
  intros k p Hk. rewrite run_log_pass.
  destruct (run_sound inp (set_session (fun _ => s) w') k p Hk) as [Hold|Hnew].
  - apply IH in Hold. apply (answered_within [] _ (pass inp (set_session (fun _ => s) w'))) in Hold.
    exact Hold.
  - apply (answered_within (log (set_session (fun _ => s) w')) _ []) in Hnew.
    by rewrite app_nil_r in Hnew.
Qed.

(** X15.  The cache is per duration.  When nothing is cached for the
    chosen duration (whatever is cached for others), a run that reaches
    its end sends one request per distinct point among its entries, as
    on an empty cache, and every entry that was cached is still there. *)
Theorem new_duration_fetches_afresh (inp : Inputs Value) (w : world) (up : Upload Value)
    (cdf pdf : DataFrame Value) :
  uploaded_file inp = Some up ->
  load up = inr (cdf, pdf) ->
  (script inp w).1 = Ret tt ->
  (forall lo la, cache w !! [AValue lo; AValue la; AInt (manual_minutes inp * 60)] = None) ->
  count is_request (pass inp w)
  = size (list_to_set (map (overlay_key (manual_minutes inp * 60))
                           (overlays str (manual_minutes inp) cdf (session (run inp w))))
          : gset (list (Arg Value)))
  /\ forall k p, cache w !! k = Some p -> cache (run inp w) !! k = Some p.
Proof.
  intros Hup Hload Hdone Hnew.
  destruct (script_goes_on isochrones mean str inp w) as (up' & cdf' & pdf' & Hkey & _);
    [by rewrite Hdone|].
  destruct (pass_done isochrones mean str inp w up cdf pdf Hkey Hup Hload Hdone)
    as (_ & _ & _ & Hq & _).
  split.
  - rewrite Hq. f_equal. apply set_eq. intros k.
    rewrite elem_of_difference, elem_of_list_to_set, list_elem_of_fmap.
    split; [tauto|]. intros (o & -> & Ho). split; [by exists o|].
    apply not_elem_of_dom. apply Hnew.
  - intros k p Hk. eapply lookup_weaken; [exact Hk|]. apply run_cache.
Qed.

(** X16.  Within one run no two requests follow each other without a
    sleep in between: each request that is answered is followed by its
    layer, its marker and the one-second sleep before the next one can go
    out, and a request that is refused ends the run. *)
Theorem requests_are_paced (inp : Inputs Value) (w : world) :
  paced true (pass inp w) = true.
Proof.
  assert ((script inp w).1 = Stopped \/ (script inp w).1 <> Stopped) as [Hout|Hgo]
    by (destruct ((script inp w).1); [right|left|right]; done).
  - destruct (script_stopped inp w Hout) as (e & Hloop & _ & _ & [[_ Hrun]|[_ Hrun]]);
      unfold pass; rewrite Hrun; simpl; rewrite drop_app_length; by destruct e.
  - destruct (script_goes_on isochrones mean str inp w Hgo)
      as (up & cdf & pdf & Hkey & Hup & Hload).
    destruct (pass_render inp w up cdf pdf Hkey Hup Hload)
      as (r & w1 & d & Hrun & Hd & _ & _ & Hpass).
    destruct (tour_run_paced isochrones _ _ _ _ _ Hrun) as (d' & Hd' & Hp & Hret).
    simpl in Hd', Hret. rewrite Hd in Hd'. apply app_inv_head in Hd'. subst d'.
    destruct Hpass as [[-> ->]|(e & _ & ->)]; simpl; [by rewrite Hret|done].
Qed.

End Further.

(** * Worked examples *)

Import Sample.

(** C1, on the first call of a process. *)
Lemma get_isochrone_memoised_witness :
  first_call = (Ret 0, first_call.2)
  /\ (cache first_call.2 !! [AValue (Number (-740)); AValue (Number 400); AInt 600] = Some 0
      /\ (forall c' w2, later serial mean str first_call.2 w2 ->
            get_isochrone serial c' (Number (-740)) (Number 400) 600 w2 = (Ret 0, w2))
      /\ (forall c' seconds' r w2,
            seconds' <> 600%Z ->
            get_isochrone serial c' (Number (-740)) (Number 400) seconds' first_call.2 = (r, w2) ->
            (forall k q, cache first_call.2 !! k = Some q -> cache w2 !! k = Some q)
            /\ forall p', r = Ret p' ->
                 cache w2 !! [AValue (Number (-740)); AValue (Number 400); AInt seconds'] = Some p'
                 /\ (cache first_call.2 !! [AValue (Number (-740)); AValue (Number 400); AInt seconds']
                     = None ->
                     cache w2 = <[ [AValue (Number (-740)); AValue (Number 400); AInt seconds'] := p' ]>
                                  (cache first_call.2)))).
Proof.
  split; [reflexivity|].
  apply (get_isochrone_memoised serial mean str alice (Number (-740)) (Number 400) 600 boot).
  reflexivity.
Defined.

(** C3 as stated fails: Alice and Bob hold different keys, yet their
    calls for the same point and duration have the same cache key, and
    Bob's run in his own session, after Alice's, sends no request and
    leaves the cache as Alice's run left it: he is served her polygons. *)
Lemma two_credentials_one_entry :
  alice <> bob
  /\ cache_key get_isochrone_params
       [AClient alice; AValue (Number (-740)); AValue (Number 400); AInt 600]
     = cache_key get_isochrone_params
       [AClient bob; AValue (Number (-740)); AValue (Number 400); AInt 600]
  /\ get_isochrone serial bob (Number (-740)) (Number 400) 600 first_call.2
     = (Ret 0, first_call.2)
  /\ count is_request (pass serial mean str (visit "bob-key" 10 (Some acme_book))
                         (open_session alice_run)) = 0
  /\ cache (run serial mean str (visit "bob-key" 10 (Some acme_book)) (open_session alice_run))
     = cache alice_run.
Proof.
  split; [discriminate|]. split; [reflexivity|]. split; [reflexivity|].
  split; [reflexivity|]. vm_compute. reflexivity.
Defined.

(** C3 as amended, on Alice's first call followed by Bob's. *)
Lemma cache_key_ignores_client_witness :
  first_call = (Ret 0, first_call.2)
  /\ (cache_key get_isochrone_params
        [AClient alice; AValue (Number (-740)); AValue (Number 400); AInt 600]
      = [AValue (Number (-740)); AValue (Number 400); AInt 600]
      /\ cache_key get_isochrone_params
        [AClient bob; AValue (Number (-740)); AValue (Number 400); AInt 600]
      = [AValue (Number (-740)); AValue (Number 400); AInt 600]
      /\ get_isochrone serial bob (Number (-740)) (Number 400) 600 first_call.2
         = (Ret 0, first_call.2)).
Proof.
  split; [reflexivity|].
  apply (cache_key_ignores_client serial alice bob (Number (-740)) (Number 400) 600 boot).
  reflexivity.
Defined.

(** ** Runs on the Acme workbook *)

(** One project at (40.0, -74.0), one company of group "Acme" at
    (40.1, -74.1), ten minutes: two requests, filed under the two triples
    with 600 seconds, and a legend of one entry. *)
Example acme_two_requests :
  count is_request (log alice_run) = 2
  /\ dom (cache alice_run)
     = {[ [AValue (Number (-740)); AValue (Number 400); AInt 600];
          [AValue (Number (-741)); AValue (Number 401); AInt 600] ]}
  /\ company_colors acme_companies = [(Text "Acme", "#1f77b4")].
Proof. repeat split; vm_compute; reflexivity. Qed.





(** What the run on that workbook is, step for step. *)
Example no_latitude_run :
  script serial mean str no_latitude_visit start
  = (Stopped,
     {| session := with_key no_latitude_visit (session start);
        cache := ∅;
        log := [ClientCreated "k";
                Error "❌ Error loading data: 'Companies' sheet must include 'Latitude' column."] |}).
Proof. reflexivity. Qed.

(** C5, on a workbook whose "Companies" sheet has no "Latitude" column. *)
Lemma missing_column_stops_witness :
  (truthy (api_key (with_key no_latitude_visit (session start))) = true
   /\ uploaded_file no_latitude_visit
      = Some (Workbook no_latitude_companies acme_projects)
   /\ ("Latitude" ∈ required_companies /\ "Latitude" ∉ columns no_latitude_companies))
  /\ exists named msg,
       ((named ∈ required_companies /\ (named ∉ columns no_latitude_companies)
         /\ msg = "'Companies' sheet must include '" +:+ named +:+ "' column.")
        \/ (named ∈ required_projects /\ (named ∉ columns acme_projects)
            /\ msg = "'Projects' sheet must include '" +:+ named +:+ "' column."))
       /\ script serial mean str no_latitude_visit start
          = (Stopped,
             {| session := with_key no_latitude_visit (session start);
                cache := cache start;
                log := log start
                       ++ [ClientCreated (api_key (with_key no_latitude_visit (session start)));
                           Error ("❌ Error loading data: " +:+ msg)] |})
       /\ count is_request (pass serial mean str no_latitude_visit start) = 0
       /\ count is_render (pass serial mean str no_latitude_visit start) = 0.
Proof.
  assert ("Latitude" ∈ required_companies /\ "Latitude" ∉ columns no_latitude_companies)
    as Hmiss by (split; apply (bool_decide_unpack _); reflexivity).
  split; [repeat split; (reflexivity || apply Hmiss)|].
  apply (missing_column_stops serial mean str no_latitude_visit start
           no_latitude_companies acme_projects "Latitude" eq_refl eq_refl (or_introl Hmiss)).
Defined.

(** C6, on two visits without a key. *)
Lemma no_key_no_request_witness :
  (api_key (session start) = ""
   /\ Forall (fun inp : Inputs Cell => api_key_input inp = "")
        [visit "" 10 (Some acme_book); visit "" 25 None])
  /\ (interact serial mean str [visit "" 10 (Some acme_book); visit "" 25 None] start
      = set_log (fun l => l ++ replicate 2 (Warning api_key_warning)) start
      /\ count is_request
           (log (interact serial mean str [visit "" 10 (Some acme_book); visit "" 25 None] start))
         = count is_request (log start)
      /\ count is_client
           (log (interact serial mean str [visit "" 10 (Some acme_book); visit "" 25 None] start))
         = count is_client (log start)
      /\ forall inp, api_key_input inp = "" ->
           script serial mean str inp
             (interact serial mean str [visit "" 10 (Some acme_book); visit "" 25 None] start)
           = (Stopped,
              set_log (fun l => l ++ [Warning api_key_warning])
                (interact serial mean str [visit "" 10 (Some acme_book); visit "" 25 None] start))).
Proof.
  assert (Forall (fun inp : Inputs Cell => api_key_input inp = "")
            [visit "" 10 (Some acme_book); visit "" 25 None]) as Hall
    by (repeat constructor).
  split; [split; [reflexivity|exact Hall]|].
  apply (no_key_no_request serial mean str
           [visit "" 10 (Some acme_book); visit "" 25 None] start eq_refl Hall).
Defined.

(** C7, on three rows in two groups. *)
Lemma company_colors_by_rank_witness :
  unique (column "Company Name"
            (companies_sheet [company "a" "Acme" 1 1; company "b" "Bolt" 2 2;
                              company "c" "Acme" 3 3])) !! 1%nat = Some (Text "Bolt")
  /\ dict_get (Text "Bolt")
       (company_colors (companies_sheet [company "a" "Acme" 1 1; company "b" "Bolt" 2 2;
                                         company "c" "Acme" 3 3]))
     = Some "#aec7e8".
Proof.
  split; [reflexivity|].
  destruct (company_colors_by_rank
              (companies_sheet [company "a" "Acme" 1 1; company "b" "Bolt" 2 2;
                                company "c" "Acme" 3 3])) as (_ & Hrank & _).
  destruct (Hrank 1%nat (Text "Bolt") eq_refl) as [-> _]. reflexivity.
Defined.


(** C9, on a second run of Alice's session. *)
Lemma competitors_never_hidden_witness :
  session start = new_session
  /\ (all_visible (session (interact serial mean str [acme_visit] start))
      /\ all_visible (session (run serial mean str acme_visit
                                 (interact serial mean str [acme_visit] start)))
      /\ forall up cdf pdf,
           truthy (api_key (with_key acme_visit
                              (session (interact serial mean str [acme_visit] start)))) = true ->
           uploaded_file acme_visit = Some up ->
           load up = inr (cdf, pdf) ->
           (forall row, row ∈ iterrows cdf ->
              competitor_visibility
                (session (run serial mean str acme_visit
                            (interact serial mean str [acme_visit] start)))
                !! row "Company Location" = Some true)
           /\ company_overlays str cdf
                (session (run serial mean str acme_visit
                            (interact serial mean str [acme_visit] start)))
              = map (company_overlay str (company_colors cdf)) (iterrows cdf)
           /\ ((script serial mean str acme_visit
                  (interact serial mean str [acme_visit] start)).1 = Ret tt ->
               count is_marker (pass serial mean str acme_visit
                                  (interact serial mean str [acme_visit] start))
               = length (List.filter shown
                           (project_sites
                              (session (run serial mean str acme_visit
                                          (interact serial mean str [acme_visit] start)))))
                 + length (iterrows cdf))).
Proof.
  split; [reflexivity|].
  apply (competitors_never_hidden serial mean str [acme_visit] start acme_visit). reflexivity.
Defined.

(** C10, when Alice uploads another workbook after her first run. *)
Lemma project_sites_loaded_once_witness :
  project_sites (session alice_run) <> []
  /\ project_sites (session (run serial mean str (visit "alice-key" 10 (Some other_book)) alice_run))
     = [(Text "Depot", {| lat := Number 400; lon := Number (-740); visible := true |})].
Proof.
  assert (project_sites (session alice_run) <> []) as Hsites by (vm_compute; discriminate).
  split; [exact Hsites|].
  destruct (project_sites_loaded_once serial mean str
              (visit "alice-key" 10 (Some other_book)) alice_run Hsites) as (_ & _ & _ & Hsame).
  rewrite Hsame; [reflexivity|]. reflexivity.
Defined.

(** ** Further runs *)

(** X1, on Alice's session after her first run. *)
Lemma stored_key_survives_witness :
  truthy (api_key (session alice_run)) = true
  /\ ((forall inps, truthy (api_key (session (interact serial mean str inps alice_run))) = true)
      /\ (forall inps inp,
            Forall (fun i : Inputs Cell => api_key_input i = "") inps ->
            api_key_input inp = "" ->
            api_key (session (interact serial mean str inps alice_run))
            = api_key (session alice_run)
            /\ exists d, pass serial mean str inp (interact serial mean str inps alice_run)
                         = ClientCreated (api_key (session alice_run)) :: d)
      /\ (forall inps inp,
            truthy (api_key_input inp) = true ->
            api_key (session (run serial mean str inp (interact serial mean str inps alice_run)))
            = api_key_input inp)).
Proof.
  split; [reflexivity|].
  apply (stored_key_survives serial mean str alice_run). reflexivity.
Defined.

(** X2, on a visit with a key and no upload. *)
Lemma stopped_run_commits_nothing_witness :
  (script serial mean str (visit "k" 10 None) alice_run).1 = Stopped
  /\ (cache (run serial mean str (visit "k" 10 None) alice_run) = cache alice_run
      /\ project_sites (session (run serial mean str (visit "k" 10 None) alice_run))
         = project_sites (session alice_run)
      /\ competitor_visibility (session (run serial mean str (visit "k" 10 None) alice_run))
         = competitor_visibility (session alice_run)
      /\ all_competitors (session (run serial mean str (visit "k" 10 None) alice_run))
         = all_competitors (session alice_run)
      /\ count is_request (pass serial mean str (visit "k" 10 None) alice_run) = 0
      /\ count is_render (pass serial mean str (visit "k" 10 None) alice_run) = 0
      /\ count is_sleep (pass serial mean str (visit "k" 10 None) alice_run) = 0).
Proof.
  split; [reflexivity|].
  apply (stopped_run_commits_nothing serial mean str (visit "k" 10 None) alice_run).
  reflexivity.
Defined.

(** X4, on the workbook without "Latitude": "Company Location" is there,
    "Latitude" is the first column that is not. *)
Lemma first_missing_column_is_named_witness :
  (truthy (api_key (with_key no_latitude_visit (session start))) = true
   /\ uploaded_file no_latitude_visit = Some (Workbook no_latitude_companies acme_projects)
   /\ required_companies = ["Company Location"] ++ "Latitude" :: ["Longitude"; "Company Name"]
   /\ (forall c, c ∈ ["Company Location"] -> c ∈ columns no_latitude_companies)
   /\ "Latitude" ∉ columns no_latitude_companies)
  /\ script serial mean str no_latitude_visit start
     = (Stopped,
        {| session := with_key no_latitude_visit (session start);
           cache := cache start;
           log := log start
                  ++ [ClientCreated (api_key (with_key no_latitude_visit (session start)));
                      Error ("❌ Error loading data: "
                             +:+ "'Companies' sheet must include 'Latitude' column.")] |}).
Proof.
  assert (forall c, c ∈ ["Company Location"] -> c ∈ columns no_latitude_companies) as Hpre.
  { intros c ->%list_elem_of_singleton. apply (bool_decide_unpack _). reflexivity. }
  assert ("Latitude" ∉ columns no_latitude_companies) as Hcol
    by (apply (bool_decide_unpack _); reflexivity).
  split; [repeat split; (reflexivity || assumption)|].
  apply (first_missing_column_is_named serial mean str no_latitude_visit start
           no_latitude_companies acme_projects
           ["Company Location"] ["Longitude"; "Company Name"] "Latitude"
           "'Companies' sheet must include 'Latitude' column." eq_refl eq_refl).
  left. repeat split; (reflexivity || assumption).
Defined.

(** X5, on Alice's first run. *)
Lemma requests_ask_for_drawn_points_witness :
  (uploaded_file acme_visit = Some acme_book
   /\ load acme_book = inr (acme_companies, acme_projects))
  /\ Forall (fun e =>
               match e with
               | Request c q _ =>
                   c = {| key := api_key (session (run serial mean str acme_visit start)) |}
                   /\ exists lo la,
                        (lo, la) ∈ points acme_companies
                                     (session (run serial mean str acme_visit start))
                        /\ q = {| locations := [[lo; la]]; profile := "driving-car";
                                  range_type := "time";
                                  intervals := [(manual_minutes acme_visit * 60)%Z] |}
               | _ => True
               end) (pass serial mean str acme_visit start).
Proof.
  split; [split; reflexivity|].
  apply (requests_ask_for_drawn_points serial mean str acme_visit start acme_book
           acme_companies acme_projects); reflexivity.
Defined.

(** X6, on Alice's first run. *)
Lemma layers_follow_the_entries_witness :
  (uploaded_file acme_visit = Some acme_book
   /\ load acme_book = inr (acme_companies, acme_projects)
   /\ (script serial mean str acme_visit start).1 = Ret tt)
  /\ (Forall2 (fun (e : Event Cell nat string) o =>
                 exists p, cache (run serial mean str acme_visit start)
                             !! [AValue (at_lon o); AValue (at_lat o);
                                 AInt (manual_minutes acme_visit * 60)] = Some p
                           /\ e = GeoJson p (layer o) (layer_style o))
              (List.filter is_layer (pass serial mean str acme_visit start))
              (overlays str (manual_minutes acme_visit) acme_companies
                 (session (run serial mean str acme_visit start)))
      /\ Forall2 (fun (e : Event Cell nat string) o =>
                    e = Marker [at_lat o; at_lon o] (popup o) (pin o))
              (List.filter is_marker (pass serial mean str acme_visit start))
              (overlays str (manual_minutes acme_visit) acme_companies
                 (session (run serial mean str acme_visit start)))).
Proof.
  split; [repeat split; reflexivity|].
  apply (layers_follow_the_entries serial mean str acme_visit start acme_book
           acme_companies acme_projects); reflexivity.
Defined.

(** X9, on a session that uploads the Acme workbook and then another. *)
Lemma project_names_stay_distinct_witness :
  NoDup (map fst (project_sites (session start)))
  /\ NoDup (map fst (project_sites
                       (session (interact serial mean str
                                   [acme_visit; visit "alice-key" 10 (Some other_book)] start)))).
Proof.
  assert (NoDup (map fst (project_sites (session start)))) as Hstart by constructor.
  split; [exact Hstart|].
  apply (project_names_stay_distinct serial mean str
           [acme_visit; visit "alice-key" 10 (Some other_book)] start Hstart).
Defined.

(** X10, on the same session. *)
Lemma competitor_records_only_grow_witness :
  dom (competitor_visibility (session start)) = all_competitors (session start)
  /\ (dom (competitor_visibility (session (interact serial mean str [acme_visit] start)))
      = all_competitors (session (interact serial mean str [acme_visit] start))
      /\ (forall cname b,
            competitor_visibility (session start) !! cname = Some b ->
            competitor_visibility (session (interact serial mean str [acme_visit] start)) !! cname
            = Some b)
      /\ (forall inp up cdf pdf row,
            truthy (api_key (with_key inp
                               (session (interact serial mean str [acme_visit] start)))) = true ->
            uploaded_file inp = Some up ->
            load up = inr (cdf, pdf) ->
            row ∈ iterrows cdf ->
            row "Company Location"
              ∈ all_competitors
                  (session (run serial mean str inp
                              (interact serial mean str [acme_visit] start))))).
Proof.
  assert (dom (competitor_visibility (session start)) = all_competitors (session start))
    as Hstart by apply dom_empty_L.
  split; [exact Hstart|].
  apply (competitor_records_only_grow serial mean str [acme_visit] start Hstart).
Defined.

(** X13, on a run that the provider cuts short at its second request. *)
Lemma at_most_one_request_per_entry_witness :
  (uploaded_file acme_visit = Some acme_book
   /\ load acme_book = inr (acme_companies, acme_projects))
  /\ count is_request (pass quota mean str acme_visit start)
     <= length (List.filter shown
                  (project_sites (session (run quota mean str acme_visit start))))
        + length (iterrows acme_companies).
Proof.
  split; [split; reflexivity|].
  apply (at_most_one_request_per_entry quota mean str acme_visit start acme_book
           acme_companies acme_projects); reflexivity.
Defined.

(** X14, on Alice's first run in a new process. *)
Lemma cached_polygons_were_answered_witness :
  ((forall k p, cache start !! k = Some p -> answered (log start) k p)
   /\ later serial mean str start alice_run)
  /\ forall k p, cache alice_run !! k = Some p -> answered (log alice_run) k p.
Proof.
  assert (forall k p, cache start !! k = Some p -> answered (log start) k p) as Hstart.
  { intros k p Hk. simpl in Hk. by rewrite lookup_empty in Hk. }
  assert (later serial mean str start alice_run) as Hlater
    by exact (later_run serial mean str start start (session start) acme_visit
                (later_now serial mean str start)).
  split; [split; assumption|].
  apply (cached_polygons_were_answered serial mean str start alice_run Hstart Hlater).
Defined.

(** X15, when Alice comes back and asks for twenty minutes. *)
Lemma new_duration_fetches_afresh_witness :
  (uploaded_file (visit "alice-key" 20 (Some acme_book)) = Some acme_book
   /\ load acme_book = inr (acme_companies, acme_projects)
   /\ (script serial mean str (visit "alice-key" 20 (Some acme_book)) alice_run).1 = Ret tt
   /\ (forall lo la, cache alice_run !! [AValue lo; AValue la; AInt (20 * 60)] = None))
  /\ (count is_request (pass serial mean str (visit "alice-key" 20 (Some acme_book)) alice_run)
      = size (list_to_set
                (map (overlay_key (20 * 60))
                     (overlays str 20 acme_companies
                        (session (run serial mean str (visit "alice-key" 20 (Some acme_book))
                                    alice_run))))
              : gset (list (Arg Cell)))
      /\ forall k p, cache alice_run !! k = Some p ->
           cache (run serial mean str (visit "alice-key" 20 (Some acme_book)) alice_run) !! k
           = Some p).
Proof.
  assert (forall lo la : Cell, cache alice_run !! [AValue lo; AValue la; AInt (20 * 60)] = None)
    as Hnew.
  { intros lo la. apply (not_elem_of_dom (D := gset (list (Arg Cell)))).
    replace (dom (cache alice_run))
      with ({[ [AValue (Number (-740)); AValue (Number 400); AInt 600];
               [AValue (Number (-741)); AValue (Number 401); AInt 600] ]}
            : gset (list (Arg Cell))) by (vm_compute; reflexivity).
    rewrite elem_of_union, !elem_of_singleton. intros [[=]|[=]]. }
  split; [repeat split; (reflexivity || exact Hnew)|].
  apply (new_duration_fetches_afresh serial mean str (visit "alice-key" 20 (Some acme_book))
           alice_run acme_book acme_companies acme_projects);
    (reflexivity || exact Hnew).
Defined.
